(** * express-seed: user model and authentication controller

    A shallow embedding of [app/components/user/user.model.js] and of the
    authentication controller (token endpoint, [ensureAuthenticated],
    [belongsTo]), with the properties the specification states about them.

    Conventions.
    - A JavaScript string that carries user data (names, e-mail addresses,
      user names, passwords) is a list of UTF-16 code units, [jsstring].
      Program identifiers (property keys, role tags, grant types, error
      messages) are ASCII literals and are kept as [string].
    - A promise is modelled by its settled value: [inl e] is a rejection with
      [e], [inr v] a fulfilment with [v].
    - A number is a double. The only arithmetic the code does on doubles that
      are not whole numbers is [Math.random() * 100]; it is modelled exactly,
      on mantissa and exponent.
    - Library code (bcrypt, the JWT service, passport strategies, ObjectId,
      [String.prototype.toLowerCase]) is a parameter of the section that uses
      it. *)

From Stdlib Require Import ZArith NArith List Ascii String Lia.
From Stdlib Require DecimalZ SpecFloat.
From stdpp Require Import base gmap strings list.

Local Open Scope Z_scope.

(** ** JavaScript values and strings *)

Module Js.

(** UTF-16 code units. *)
Definition jsstring := list N.

Definition APOSTROPHE : N := 39.       (* ' U+0027 *)
Definition RIGHT_QUOTE : N := 8217.    (* U+2019 *)
Definition EM_DASH : N := 8212.        (* U+2014 *)
Definition HYPHEN : N := 45.           (* - U+002D *)
Definition SLASH : N := 47.            (* / U+002F *)
Definition BACKSLASH : N := 92.        (* \ U+005C *)

(** [s.replace(/[cls]/g, repl)] for a character class [cls] of code units:
    every code unit of the class is replaced by [repl], the others are kept. *)
Fixpoint replace_class (cls : list N) (repl : jsstring) (s : jsstring) : jsstring :=
  match s with
  | [] => []
  | c :: s' =>
      (if bool_decide (c ∈ cls) then repl else [c]) ++ replace_class cls repl s'
  end.

(** The code units of an ASCII literal. *)
Fixpoint lit (s : string) : jsstring :=
  match s with
  | EmptyString => []
  | String a s' => N_of_ascii a :: lit s'
  end.

(** [String(n)] for an integer [n]: its decimal digits, after a minus sign
    when it is negative. *)
Fixpoint digits (u : Decimal.uint) : jsstring :=
  match u with
  | Decimal.Nil => []
  | Decimal.D0 u' => 48%N :: digits u'
  | Decimal.D1 u' => 49%N :: digits u'
  | Decimal.D2 u' => 50%N :: digits u'
  | Decimal.D3 u' => 51%N :: digits u'
  | Decimal.D4 u' => 52%N :: digits u'
  | Decimal.D5 u' => 53%N :: digits u'
  | Decimal.D6 u' => 54%N :: digits u'
  | Decimal.D7 u' => 55%N :: digits u'
  | Decimal.D8 u' => 56%N :: digits u'
  | Decimal.D9 u' => 57%N :: digits u'
  end.

Definition String_of_number (n : Z) : jsstring :=
  match Z.to_int n with
  | Decimal.Pos u => digits u
  | Decimal.Neg u => HYPHEN :: digits u
  end.

(** Values that a parsed request body can hold. *)
Inductive value :=
  | Undefined
  | Null
  | Bool (b : bool)
  | Num (n : Z)
  | Str (s : string)
  | Obj.                      (* any object or array *)

(** [!!v] *)
Definition truthy (v : value) : bool :=
  match v with
  | Undefined | Null => false
  | Bool b => b
  | Num n => negb (n =? 0)
  | Str s => negb (bool_decide (s = ""%string))
  | Obj => true
  end.

(** [v === 'literal'] *)
Definition is_str (v : value) (s : string) : bool :=
  match v with
  | Str s' => bool_decide (s' = s)
  | _ => false
  end.

(** Truthiness of a string that may be [undefined]. *)
Definition truthy_str (s : option jsstring) : bool :=
  match s with
  | Some (_ :: _) => true
  | _ => false
  end.

(** The code units [String.prototype.trim] strips: white space and line
    terminators. *)
Definition is_space (c : N) : bool :=
  bool_decide (c ∈ [9; 10; 11; 12; 13; 32; 160; 5760; 8232; 8233; 8239; 8287;
                    12288; 65279]%N)
  || ((8192 <=? c)%N && (c <=? 8202)%N).

Fixpoint drop_spaces (s : jsstring) : jsstring :=
  match s with
  | c :: s' => if is_space c then drop_spaces s' else s
  | [] => []
  end.

(** [s.trim()] *)
Definition trim (s : jsstring) : jsstring :=
  rev (drop_spaces (rev (drop_spaces s))).

(** A finite double that is not negative: [mant * 2 ^ expo]. *)
Record double := {
  mant : Z;
  expo : Z;
}.

(** The doubles [Math.random()] can return, those from 0 up to but not
    including 1: a mantissa of at most 53 bits and an exponent from -1074 to
    -53. *)
Definition below_one (x : double) : Prop :=
  0 <= mant x < 2 ^ 53 /\ -1074 <= expo x <= -53.

(** The double nearest to [n * 2 ^ e], ties to the even mantissa: what is
    beyond 53 bits of [n] is rounded away. (For [0 <= n], [-1074 <= e] and a
    result below [2 ^ 1024].) *)
Definition round53 (n e : Z) : double :=
  let s := Z.log2 n + 1 - 53 in
  if s <=? 0 then {| mant := n; expo := e |}
  else
    let q := n / 2 ^ s in
    let r := n mod 2 ^ s in
    let half := 2 ^ (s - 1) in
    let up := (half <? r) || ((r =? half) && Z.odd q) in
    {| mant := if up then q + 1 else q; expo := e + s |}.

(** [x * k] for a whole number [k] from 0 to [2 ^ 53], which is a double as
    it stands: the exact product, rounded. *)
Definition times (x : double) (k : Z) : double :=
  round53 (mant x * k) (expo x).

(** [Math.floor(x)] *)
Definition Math_floor (x : double) : Z :=
  if expo x <? 0 then mant x / 2 ^ (- expo x) else mant x * 2 ^ expo x.

End Js.

Import Js.

(** ** Errors *)

#[warnings="-register-all"]
Inductive error :=
  | Error (msg : string)
  | TypeError
  | ValidationError (field type : string)
  | ServerError (msg : string)
  | NotAuthenticatedError (cause : option error)
  | NotAuthorizedError
  | UserSuspendedError.

(** The settled value of a promise. *)
Definition promise (A : Type) : Type := error + A.

(** How a middleware call ends: it calls [next()], calls [next(err)], or an
    exception escapes from it. *)
Inductive outcome :=
  | Next
  | NextErr (e : error)
  | Throw (e : error).

(** ** The user model *)

Module UserModel.

(** A BSON ObjectId, a 96-bit number. *)
Definition ObjectId := N.

(** What property access on a document can answer where an owner reference
    is looked for. An absent property ([undefined]) is an absent key. *)
Inductive PropVal :=
  | PNull
  | PObjectId (i : ObjectId)
  | PObject (oid : option ObjectId)   (* an object; its [_id] when that is an ObjectId *)
  | PPrim.                            (* a string, a number or a boolean *)

(** The paths of the user schema the model reads, and in [others] what
    property access answers on every other property of the document (the
    further paths with their defaults, the virtuals, the methods). *)
Record User := {
  _id : ObjectId;
  firstName : jsstring;
  lastName : jsstring;
  fullName : option jsstring;
  email : option jsstring;
  username : option jsstring;
  password : option jsstring;
  roles : list string;
  isSuspended : bool;
  others : gmap string PropVal;
}.

(** [UserSchema.statics.cleanName] *)
Definition cleanName (name : jsstring) : jsstring :=
  replace_class [BACKSLASH; SLASH] []
    (replace_class [EM_DASH] [HYPHEN]
      (replace_class [APOSTROPHE] [RIGHT_QUOTE] name)).

(** The claims object of a token. [secureStatus] is [None] when the object
    has no such property; otherwise it is the instant (in milliseconds) that
    [moment().toJSON()] renders. *)
Record Claims := {
  claims_id : ObjectId;
  claims_roles : list string;
  secureStatus : option Z;
}.

(** [UserSchema.methods.getClaims]: a fresh object on every call. *)
Definition getClaims (this : User) : Claims :=
  {| claims_id := _id this; claims_roles := roles this; secureStatus := None |}.

(** [UserSchema.methods.hasRole] *)
Definition hasRole (this : User) (role : string) : bool :=
  bool_decide (role ∈ roles this).

Definition set_roles (this : User) (rs : list string) : User :=
  {| _id := _id this; firstName := firstName this; lastName := lastName this;
     fullName := fullName this; email := email this; username := username this;
     password := password this; roles := rs; isSuspended := isSuspended this;
     others := others this |}.

(** The document with [p] at the path [password]. *)
Definition with_password (this : User) (p : option jsstring) : User :=
  {| _id := _id this; firstName := firstName this; lastName := lastName this;
     fullName := fullName this; email := email this; username := username this;
     password := p; roles := roles this; isSuspended := isSuspended this;
     others := others this |}.

(** [this.password = v]: the schema gives the path [trim: true], so the
    value goes through the setter that trims it. *)
Definition set_password (this : User) (v : jsstring) : User :=
  with_password this (Some (trim v)).

(** [UserSchema.methods.addRole] *)
Definition addRole (this : User) (role : string) : User :=
  if negb (bool_decide (role ∈ roles this))
  then set_roles this (roles this ++ [role])
  else this.

(** [UserSchema.options.toJSON.transform(doc, ret)]: [ret] is the plain
    object under construction, a map from property names to values. *)
Definition toJSON_transform (ret : gmap string value) : gmap string value :=
  delete "fullName"%string (delete "password"%string ret).

(** *** Unique user names *)

(** The data [uniqueUsername] destructures. *)
Record UserData := {
  data_email : option jsstring;
  data_firstName : jsstring;
  data_lastName : jsstring;
}.

(** Computations that call [Math.random()]: the state is the number of
    results consumed so far. *)
Definition rand (A : Type) : Type := nat -> A * nat.

Definition rand_ret {A} (a : A) : rand A := fun i => (a, i).

Definition rand_bind {A B} (m : rand A) (k : A -> rand B) : rand B :=
  fun i => let (a, j) := m i in k a j.

Notation "x <~ m ;; k" := (rand_bind m (fun x => k))
  (at level 100, m at next level, right associativity).

Definition UNABLE : error := Error "Unable to find unique username for user".

Section UniqueUsername.

(** [String.prototype.toLowerCase] *)
Variable toLowerCase : jsstring -> jsstring.

(** The successive results of [Math.random()]. *)
Variable Math_random : nat -> double.

(** [random()]: [String(Math.floor(Math.random() * 100) + 1)] *)
Definition random : rand jsstring :=
  fun i => (String_of_number (Math_floor (times (Math_random i) 100) + 1), S i).

(** The array [usernames] once the e-mail address has been put in front. *)
Definition usernames (data : UserData) : rand (list jsstring) :=
  let name := toLowerCase (data_firstName data ++ data_lastName data) in
  r1 <~ random ;;
  r2 <~ random ;;
  r3 <~ random ;;
  r4 <~ random ;;
  r5 <~ random ;;
  let usernames :=
    [name; name ++ r1; name ++ r2; name ++ r3; name ++ r4; name ++ r5] in
  rand_ret
    (if truthy_str (data_email data)
     then match data_email data with
          | Some email => toLowerCase email :: usernames
          | None => usernames
          end
     else usernames).

(** [this.find({username: {$in: usernames}}).select('username')] over the
    collection [db]. *)
Definition find_in (db : list User) (usernames : list jsstring) : list User :=
  List.filter (fun user => match username user with
                           | Some n => bool_decide (n ∈ usernames)
                           | None => false
                           end) db.

(** The [then] callback: the first user name no found user has, and the
    falsy test on it. *)
Definition pick (usernames : list jsstring) (users : list User) : promise jsstring :=
  let username :=
    List.find
      (fun username0 =>
         negb (existsb (fun user => bool_decide (username user = Some username0)) users))
      usernames in
  match username with
  | Some (c :: s) => inr (c :: s)
  | Some [] | None => inl UNABLE
  end.

(** [UserSchema.statics.uniqueUsername] *)
Definition uniqueUsername (db : list User) (data : UserData) : rand (promise jsstring) :=
  usernames0 <~ usernames data ;;
  rand_ret (pick usernames0 (find_in db usernames0)).

End UniqueUsername.

(** *** Passwords *)

(** A document being saved: its paths and the set of modified paths. *)
Record Doc := {
  doc : User;
  modified : gset string;
}.

Definition isModified (this : Doc) (path : string) : bool :=
  bool_decide (path ∈ modified this).


Section Password.

(** [config.BCRYPT_ROUNDS] *)
Variable BCRYPT_ROUNDS : Z.

(** The bcrypt library. [genSalt] draws a salt from the entropy it is
    given; each call settles as a promise. *)
Variable bcrypt_genSalt : Z -> nat -> promise jsstring.
Variable bcrypt_hash : jsstring -> jsstring -> promise jsstring.
Variable bcrypt_compare : jsstring -> jsstring -> promise bool.

(** The second [pre('save')] hook: the document after the hook and what
    [next] was called with. *)
Definition preSaveHashPassword (this : Doc) (entropy : nat) : Doc * outcome :=
  if negb (isModified this "password") then (this, Next)
  else
    match password (doc this) with
    | None | Some [] => (this, NextErr (ValidationError "password" "required"))
    | Some raw =>
        match bcrypt_genSalt BCRYPT_ROUNDS entropy with
        | inl e => (this, NextErr e)
        | inr salt =>
            match bcrypt_hash raw salt with
            | inl e => (this, NextErr e)
            | inr hash =>
                ({| doc := set_password (doc this) hash;
                    modified := modified this |}, Next)
            end
        end
    end.


End Password.

End UserModel.

(** ** The authentication controller *)

Module AuthCtrl.

Import UserModel.

(** *** Requests and responses *)

(** The fields of [req.body] the token endpoint reads. *)
Record Body := {
  body_grantType : value;
  body_remember : value;
  body_secureStatus : value;
}.

(** [req.app.locals], both in seconds. *)
Record Locals := {
  SECURE_STATUS_EXPIRATION : Z;
  REFRESH_TOKEN_COOKIE_MAX_AGE : Z;
}.

(** A document an earlier middleware loaded into the request. *)
Record Document := {
  doc_id : ObjectId;
  doc_props : gmap string PropVal;
}.

(** [item[propKey]] *)
Definition doc_get (d : Document) (key : string) : option PropVal :=
  if bool_decide (key = "_id"%string) then Some (PObjectId (doc_id d))
  else doc_props d !! key.

Definition opt_prop {A} (key : string) (o : option A) : list (string * PropVal) :=
  match o with
  | Some _ => [(key, PPrim)]
  | None => []
  end.

(** The user document seen through property access: the paths the model
    reads, and every other property as [others] has it. *)
Definition user_document (u : User) : Document :=
  {| doc_id := _id u;
     doc_props :=
       list_to_map
         ([("firstName"%string, PPrim); ("lastName"%string, PPrim);
           ("roles"%string, PObject None); ("isSuspended"%string, PPrim)]
          ++ opt_prop "fullName" (fullName u) ++ opt_prop "email" (email u)
          ++ opt_prop "username" (username u) ++ opt_prop "password" (password u))
       ∪ others u |}.

Record Req := {
  body : Body;
  req_secure : bool;                    (* [req.secure] *)
  locals : Locals;
  me : option User;                     (* [req.me] *)
  loaded : gmap string Document;        (* the other loaded entities *)
}.

(** [req[key]] for a key that names the principal or a loaded entity. *)
Definition req_get (req : Req) (key : string) : option Document :=
  if bool_decide (key = "me"%string) then user_document <$> me req
  else loaded req !! key.

Definition set_me (req : Req) (user : User) : Req :=
  {| body := body req; req_secure := req_secure req; locals := locals req;
     me := Some user; loaded := loaded req |}.

Record CookieOptions := {
  maxAge : Z;          (* milliseconds *)
  secure : bool;
  httpOnly : bool;
}.

Record Cookie := {
  cookie_name : string;
  cookie_value : string;
  cookie_options : CookieOptions;
}.

(** The response: the cookies written and the body sent, if any; the body of
    the token endpoint is [{accessToken}]. *)
Record Res := {
  cookies : list Cookie;
  sent : option string;
}.

(** The state a request handler runs in. [minted] records the calls of
    [jwt.generate], latest first. *)
Record World := {
  w_req : Req;
  w_res : Res;
  minted : list (string * Claims);
}.

Definition M (A : Type) : Type := World -> A * World.

Definition ret {A} (a : A) : M A := fun w => (a, w).

Definition bind {A B} (m : M A) (k : A -> M B) : M B :=
  fun w => let (a, w') := m w in k a w'.

Notation "x <- m ;; k" := (bind m (fun x => k))
  (at level 100, m at next level, right associativity).
Notation "m ;;; k" := (bind m (fun _ => k))
  (at level 100, right associativity).

(** [req.me = user] *)
Definition assign_me (user : User) : M unit :=
  fun w => (tt, {| w_req := set_me (w_req w) user; w_res := w_res w; minted := minted w |}).

(** [res.cookie(name, value, options)] *)
Definition res_cookie (name value : string) (options : CookieOptions) : M unit :=
  fun w =>
    (tt, {| w_req := w_req w;
            w_res := {| cookies := cookies (w_res w) ++
                                   [{| cookie_name := name; cookie_value := value;
                                       cookie_options := options |}];
                        sent := sent (w_res w) |};
            minted := minted w |}).

(** [res.send({accessToken})] *)
Definition res_send (accessToken : string) : M unit :=
  fun w =>
    (tt, {| w_req := w_req w;
            w_res := {| cookies := cookies (w_res w); sent := Some accessToken |};
            minted := minted w |}).

Definition get_req : M Req := fun w => (w_req w, w).

Definition with_secureStatus (claims : Claims) (t : Z) : Claims :=
  {| claims_id := claims_id claims; claims_roles := claims_roles claims;
     secureStatus := Some t |}.

Section Token.

(** [toCamelCase] of [helpers/transform/to-camel-case]. *)
Variable toCamelCase : value -> value.

(** The signing function of the JWT service, for the registered kinds. *)
Variable sign : string -> Claims -> string.

(** [passport.authenticate(strategy, cb)(req, res, next)]: the arguments
    [(error, user)] the strategy calls [cb] with. *)
Variable passport_authenticate : string -> Req -> option error * option User.

(** [jwt.generate(kind, claims)] *)
Definition jwt_generate (kind : string) (claims : Claims) : M string :=
  fun w =>
    (sign kind claims,
     {| w_req := w_req w; w_res := w_res w; minted := (kind, claims) :: minted w |}).

(** [authCallback] inside [token]; [now] is the instant [moment()] reads,
    in milliseconds. The result is what [next] was called with, if it was
    called. *)
Definition authCallback (grantType : value) (remember secureStatus : bool)
    (now : Z) (error : option error) (user : option User) : M (option outcome) :=
  match error with
  | Some e => ret (Some (NextErr (NotAuthenticatedError (Some e))))
  | None =>
      match user with
      | None => ret (Some (NextErr (NotAuthenticatedError None)))
      | Some user =>
          if isSuspended user then ret (Some (NextErr UserSuspendedError))
          else
            assign_me user ;;;
            req <- get_req ;;
            let claims := getClaims user in
            let claims :=
              if secureStatus && is_str grantType "password"
              then
                let EXPIRATION := SECURE_STATUS_EXPIRATION (locals req) in
                with_secureStatus claims (now + EXPIRATION * 1000)
              else claims in
            accessToken <- jwt_generate "access" claims ;;
            (if remember
             then
               let COOKIE_MAX_AGE := REFRESH_TOKEN_COOKIE_MAX_AGE (locals req) in
               refreshToken <- jwt_generate "refresh" (getClaims user) ;;
               res_cookie "refreshToken" refreshToken
                 {| maxAge := COOKIE_MAX_AGE * 1000;
                    secure := req_secure req;
                    httpOnly := true |}
             else ret tt) ;;;
            res_send accessToken ;;;
            ret None
      end
  end.

(** [token(req, res, next)] *)
Definition token (now : Z) : M (option outcome) :=
  req <- get_req ;;
  let grantType := toCamelCase (body_grantType (body req)) in
  let remember := truthy (body_remember (body req)) in
  let secureStatus := truthy (body_secureStatus (body req)) in
  let run strategy :=
    let (error, user) := passport_authenticate strategy req in
    authCallback grantType remember secureStatus now error user in
  if is_str grantType "bearer" then run "bearer"%string
  else if is_str grantType "password" then run "local"%string
  else if is_str grantType "refreshToken" then run "refresh"%string
  else ret None.

End Token.

(** *** Middleware *)

(** [ensureAuthenticated(...roles)(req, res, next)] *)
Definition ensureAuthenticated (roles : list string) (req : Req) : outcome :=
  match me req with
  | None => NextErr (NotAuthenticatedError None)
  | Some user =>
      if isSuspended user then NextErr UserSuspendedError
      else if negb (bool_decide (roles = [])) && negb (existsb (hasRole user) roles)
      then NextErr NotAuthorizedError
      else Next
  end.

(** [Array.prototype.some] with a callback that may throw. *)
Fixpoint some {A} (f : A -> error + bool) (l : list A) : error + bool :=
  match l with
  | [] => inr false
  | x :: l' =>
      match f x with
      | inl e => inl e
      | inr true => inr true
      | inr false => some f l'
      end
  end.

(** [user.hasRole(role)] on [req.me], which may be [undefined]. *)
Definition me_hasRole (user : option User) (role : string) : error + bool :=
  match user with
  | None => inl TypeError
  | Some u => inr (hasRole u role)
  end.

(** The third argument of [belongsTo]. *)
Inductive PropKeyArg :=
  | PKUndefined
  | PKString (s : string)
  | PKArray (roles : list string).

Definition MISSING_PROP_KEY : error := Error "Missing prop key and unknown owner key".

Section BelongsTo.

(** [ObjectId.prototype.equals] *)
Variable equals : ObjectId -> PropVal -> bool.

(** The middleware [belongsTo] returns, for the prop key and the roles it
    has settled on. *)
Definition belongsTo_guard (itemKey ownerKey propKey : string)
    (roles : option (list string)) (req : Req) : outcome :=
  let user := me req in
  let owner := req_get req ownerKey in
  let item := req_get req itemKey in
  match match roles with
        | Some roles => some (me_hasRole user) roles
        | None => inr false
        end with
  | inl e => Throw e
  | inr true => Next
  | inr false =>
      match owner with
      | None =>
          NextErr (ServerError ("Owner of type " ++ ownerKey ++ " has not been loaded"))
      | Some owner =>
          match item with
          | None =>
              NextErr (ServerError ("Item of type " ++ itemKey ++ " has not been loaded"))
          | Some item =>
              match doc_get item propKey with
              | None =>
                  NextErr (ServerError ("Item of type " ++ itemKey ++ " has no "
                                        ++ propKey ++ " property"))
              | Some PNull => Throw TypeError   (* [typeof null] is 'object' *)
              | Some prop =>
                  let _id :=
                    match prop with
                    | PObject (Some i) => PObjectId i
                    | _ => prop
                    end in
                  if negb (equals (doc_id owner) _id)
                  then NextErr NotAuthorizedError
                  else Next
              end
          end
      end
  end.

(** [belongsTo(itemKey, ownerKey, propKey, roles)]: the middleware, or
    the exception thrown at set-up. *)
Definition belongsTo (itemKey ownerKey : string) (propKey : PropKeyArg)
    (roles : option (list string)) : error + (Req -> outcome) :=
  let (roles, propKey) :=
    match propKey with
    | PKArray rs => (Some rs, PKUndefined)
    | _ => (roles, propKey)
    end in
  let propKey :=
    match propKey with
    | PKUndefined =>
        if bool_decide (ownerKey = "me"%string) then PKString "user" else PKUndefined
    | _ => propKey
    end in
  match propKey with
  | PKString (String a s) =>
      inr (belongsTo_guard itemKey ownerKey (String a s) roles)
  | _ => inl MISSING_PROP_KEY
  end.

End BelongsTo.

End AuthCtrl.

(** * Properties of the user model *)

Module UserModelProps.

Import UserModel.

(** ** Name cleaning *)

Section ReplaceClass.

Variables (cls : list N) (repl : jsstring).

(** Nothing changes in a string that has no code unit of the class. *)
Lemma replace_class_fixed (s : jsstring) :
  Forall (fun c => c ∉ cls) s -> replace_class cls repl s = s.
Proof.
  induction 1 as [|c s Hc _ IH]; simpl; [done|].
  rewrite bool_decide_eq_false_2 by done. by rewrite IH.
Qed.

(** A property of code units that the replacement has is kept. *)
Lemma replace_class_Forall (P : N -> Prop) (s : jsstring) :
  Forall P repl -> Forall P s -> Forall P (replace_class cls repl s).
Proof.
  intros Hrepl. induction 1 as [|c s Hc _ IH]; simpl; [constructor|].
  apply Forall_app. split; [|done].
  case_bool_decide; [done|]. by constructor.
Qed.

(** The result has no code unit of the class when the replacement has none. *)
Lemma replace_class_clears (s : jsstring) :
  Forall (fun c => c ∉ cls) repl ->
  Forall (fun c => c ∉ cls) (replace_class cls repl s).
Proof.
  intros Hrepl. induction s as [|c s IH]; simpl; [constructor|].
  apply Forall_app. split; [|done].
  case_bool_decide; [done|]. by constructor.
Qed.

End ReplaceClass.

(** Closed facts about which code units a replacement holds. *)
Ltac not_in_class :=
  repeat (apply Forall_cons; split); [..|apply Forall_nil];
  apply (bool_decide_unpack _); vm_compute; exact I.

Lemma cleanName_no_apostrophe (s : jsstring) :
  Forall (fun c => c ∉ [APOSTROPHE]) (cleanName s).
Proof.
  unfold cleanName.
  apply replace_class_Forall; [constructor|].
  apply replace_class_Forall; [not_in_class|].
  apply replace_class_clears. not_in_class.
Qed.

Lemma cleanName_no_em_dash (s : jsstring) :
  Forall (fun c => c ∉ [EM_DASH]) (cleanName s).
Proof.
  unfold cleanName.
  apply replace_class_Forall; [constructor|].
  apply replace_class_clears. not_in_class.
Qed.

Lemma cleanName_no_separator (s : jsstring) :
  Forall (fun c => c ∉ [BACKSLASH; SLASH]) (cleanName s).
Proof. unfold cleanName. apply replace_class_clears. constructor. Qed.

(** C8. [cleanName] is a function of its argument alone, and cleaning a
    cleaned name changes nothing: [cleanName (cleanName s) = cleanName s]. *)
Theorem cleanName_idempotent (s : jsstring) :
  cleanName (cleanName s) = cleanName s.
Proof.
  unfold cleanName at 1.
  rewrite (replace_class_fixed [APOSTROPHE]) by apply cleanName_no_apostrophe.
  rewrite (replace_class_fixed [EM_DASH]) by apply cleanName_no_em_dash.
  apply replace_class_fixed, cleanName_no_separator.
Qed.

(** "O'Neil/—x" is cleaned to "O’Neil-x". *)
Example cleanName_example :
  cleanName (lit "O'Neil/" ++ [EM_DASH] ++ lit "x")
  = lit "O" ++ [RIGHT_QUOTE] ++ lit "Neil-x".
Proof. reflexivity. Qed.

(** ** Serialization *)

(** C6. Whatever the plain object of a user holds, after the [toJSON]
    transform it has neither a [password] nor a [fullName] property. *)
Theorem toJSON_omits_password_and_fullName (ret : gmap string value) :
  toJSON_transform ret !! "password"%string = None
  /\ toJSON_transform ret !! "fullName"%string = None.
Proof.
  unfold toJSON_transform. split.
  - rewrite lookup_delete_ne by done. apply lookup_delete_eq.
  - apply lookup_delete_eq.
Qed.

(** The other properties are left as they were. *)
Lemma toJSON_keeps_others (ret : gmap string value) (key : string) :
  key <> "password"%string -> key <> "fullName"%string ->
  toJSON_transform ret !! key = ret !! key.
Proof.
  intros. unfold toJSON_transform. by rewrite !lookup_delete_ne.
Qed.

(** ** Roles *)

Lemma addRole_hasRole (this : User) (role : string) :
  hasRole (addRole this role) role = true.
Proof.
  unfold addRole, hasRole.
  destruct (bool_decide (role ∈ roles this)) eqn:Hin; simpl; [done|].
  apply bool_decide_eq_true_2, elem_of_app. right. left.
Qed.

(** Adding a role twice adds it once. *)
Lemma addRole_idempotent (this : User) (role : string) :
  addRole (addRole this role) role = addRole this role.
Proof.
  pose proof (addRole_hasRole this role) as H. unfold hasRole in H.
  unfold addRole at 1. by rewrite H.
Qed.

(** ** Passwords *)

Section PasswordProps.

Variable BCRYPT_ROUNDS : Z.
Variable bcrypt_genSalt : Z -> nat -> promise jsstring.
Variable bcrypt_hash : jsstring -> jsstring -> promise jsstring.
Variable bcrypt_compare : jsstring -> jsstring -> promise bool.

(** What bcrypt promises: a password matches every hash made from it. *)
Hypothesis bcrypt_compare_hash :
  forall p salt hash, bcrypt_hash p salt = inr hash -> bcrypt_compare p hash = inr true.

(** An unmodified password is left alone. *)
Lemma preSave_unmodified (this : Doc) (entropy : nat) :
  isModified this "password" = false ->
  preSaveHashPassword BCRYPT_ROUNDS bcrypt_genSalt bcrypt_hash this entropy = (this, Next).
Proof. intros H. unfold preSaveHashPassword. by rewrite H. Qed.

(** A modified password that is missing or empty fails validation. *)
Lemma preSave_required (this : Doc) (entropy : nat) :
  isModified this "password" = true ->
  truthy_str (password (doc this)) = false ->
  preSaveHashPassword BCRYPT_ROUNDS bcrypt_genSalt bcrypt_hash this entropy
  = (this, NextErr (ValidationError "password" "required")).
Proof.
  intros H Hp. unfold preSaveHashPassword. rewrite H. simpl.
  by destruct (password (doc this)) as [[|c p]|].
Qed.



End PasswordProps.

(** A stand-in for bcrypt that keeps its contract: the hash is the salt
    followed by the password. *)
Definition toy_genSalt (rounds : Z) (entropy : nat) : promise jsstring :=
  inr [N.of_nat entropy].

Definition toy_hash (p salt : jsstring) : promise jsstring := inr (salt ++ p).



Definition sample_user : User :=
  {| _id := 7%N; firstName := lit "Ann"; lastName := lit "Lee"; fullName := None;
     email := None; username := Some (lit "annlee"); password := Some (lit "s3cret");
     roles := ["user"%string]; isSuspended := false; others := ∅ |}.




(** ** Unique user names *)

(** [h] is the user name of a stored user. *)
Definition taken (db : list User) (h : jsstring) : Prop :=
  exists user, user ∈ db /\ username user = Some h.

(** The test the [then] callback makes on a candidate. *)
Definition takenb (users : list User) (h : jsstring) : bool :=
  existsb (fun user => bool_decide (username user = Some h)) users.

Lemma takenb_true (db : list User) (h : jsstring) : takenb db h = true <-> taken db h.
Proof.
  unfold takenb, taken. rewrite existsb_exists. split.
  - intros (user & Hin & Heq). exists user. split; [by apply list_elem_of_In|].
    by apply bool_decide_eq_true_1 in Heq.
  - intros (user & Hin & Heq). exists user. split; [by apply list_elem_of_In|].
    by apply bool_decide_eq_true_2.
Qed.

Lemma takenb_false (db : list User) (h : jsstring) : takenb db h = false <-> ~ taken db h.
Proof. rewrite <-takenb_true. by destruct (takenb db h). Qed.

(** [Math.floor(x * 100)] for a result [x] of [Math.random()]: rounding the
    product moves it by less than the 100 ulps that separate it from 100. *)
Lemma floor_times_100 (x : double) :
  below_one x -> 0 <= Math_floor (times x 100) <= 99.
Proof.
  intros [[Hm0 Hm1] [He0 He1]]. unfold times, round53.
  set (n := mant x * 100). set (e := expo x).
  assert (0 <= n) as Hn0 by (unfold n; lia).
  assert (2 ^ 53 <= 2 ^ (- e)) as Hpow by (apply Z.pow_le_mono_r; unfold e; lia).
  assert (n <= 100 * 2 ^ (- e) - 100) as Hn1 by (unfold n; lia).
  assert (0 < 2 ^ (- e)) as Hpe by (apply Z.pow_pos_nonneg; unfold e; lia).
  destruct (Z.leb_spec (Z.log2 n + 1 - 53) 0) as [Hs|Hs].
  - unfold Math_floor. simpl.
    destruct (Z.ltb_spec e 0) as [_|He]; [|unfold e in *; lia].
    split; [apply Z.div_pos; lia|].
    assert (n / 2 ^ (- e) < 100); [|lia].
    apply Z.div_lt_upper_bound; lia.
  - set (s := Z.log2 n + 1 - 53) in *.
    assert (s <= 7) as Hs7.
    { assert (Z.log2 n < 60); [|unfold s; lia].
      destruct (Z.eq_dec n 0) as [->|Hne]; [simpl; lia|].
      apply Z.log2_lt_pow2; [lia|]. unfold n.
      change (2 ^ 60) with (128 * 2 ^ 53). lia. }
    set (half := 2 ^ (s - 1)).
    assert (2 ^ s = 2 * half) as Hhalf.
    { unfold half. rewrite <-Z.pow_succ_r by lia. f_equal. lia. }
    assert (0 < half <= 64) as Hh.
    { unfold half. split; [apply Z.pow_pos_nonneg; lia|].
      change 64 with (2 ^ 6). apply Z.pow_le_mono_r; lia. }
    assert (2 ^ (- e) = 2 ^ (- (e + s)) * 2 ^ s) as Hsplit.
    { rewrite <-Z.pow_add_r by (unfold e; lia). f_equal. lia. }
    assert (0 < 2 ^ (- (e + s))) as Hpb
      by (apply Z.pow_pos_nonneg; unfold e in *; lia).
    pose proof (Z.div_mod n (2 ^ s) ltac:(lia)) as Hdm.
    pose proof (Z.mod_pos_bound n (2 ^ s) ltac:(lia)) as Hr.
    assert (0 <= n / 2 ^ s) as Hq0 by (apply Z.div_pos; lia).
    set (q := n / 2 ^ s) in *. set (r := n mod 2 ^ s) in *.
    set (up := (half <? r) || ((r =? half) && Z.odd q)).
    set (q' := if up then q + 1 else q).
    assert (0 <= q' /\ q' * 2 ^ s <= n + half) as [Hq'0 Hq'].
    { unfold q', up.
      destruct (Z.ltb_spec half r); simpl; [nia|].
      destruct (Z.eqb_spec r half); simpl; [destruct (Z.odd q)|]; nia. }
    unfold Math_floor. simpl.
    destruct (Z.ltb_spec (e + s) 0) as [_|He]; [|unfold e in *; lia].
    split; [apply Z.div_pos; lia|].
    assert (q' / 2 ^ (- (e + s)) < 100); [|lia].
    apply Z.div_lt_upper_bound; [lia|]. nia.
Qed.

(** [Math.floor(x * 100) + 1] *)
Lemma draw_range (x : double) :
  below_one x -> 1 <= Math_floor (times x 100) + 1 <= 100.
Proof. intros H. apply floor_times_100 in H. lia. Qed.

(** The doubles 0, the least positive one, 0.3, 0.5, 0.74, 0.99 and the
    greatest one below 1. *)
Definition sample_doubles : list double :=
  [ {| mant := 0; expo := -1074 |};
    {| mant := 1; expo := -1074 |};
    {| mant := 5404319552844595; expo := -54 |};
    {| mant := 4503599627370496; expo := -53 |};
    {| mant := 6665327448508334; expo := -53 |};
    {| mant := 8917127262193582; expo := -53 |};
    {| mant := 9007199254740991; expo := -53 |} ].

(** A double of the model as the Standard Library's IEEE 754 model has it,
    and whether one of each has the same value. *)
Definition spec_of (x : double) : SpecFloat.spec_float :=
  match mant x with
  | Zpos p => SpecFloat.S754_finite false p (expo x)
  | _ => SpecFloat.S754_zero false
  end.

Definition same_value (f : SpecFloat.spec_float) (x : double) : bool :=
  match f with
  | SpecFloat.S754_zero _ => mant x =? 0
  | SpecFloat.S754_finite false m e =>
      Zpos m * 2 ^ (e + 1074) =? mant x * 2 ^ (expo x + 1074)
  | _ => false
  end.

(** On the samples [times x 100] is the binary64 product of [SpecFloat], and
    the floors are those the code computes: 0.3, 0.74 and 0.99 give 30, 74
    and 99. *)
Example times_100_is_binary64 :
  forallb (fun x => same_value
                      (SpecFloat.SFmul 53 1024 (spec_of x)
                         (SpecFloat.S754_finite false 25 2))
                      (times x 100)) sample_doubles = true
  /\ map (fun x => Math_floor (times x 100)) sample_doubles = [0; 0; 30; 50; 74; 99; 99].
Proof. split; vm_compute; reflexivity. Qed.

Lemma find_ext_in {A} (f g : A -> bool) (l : list A) :
  (forall x, x ∈ l -> f x = g x) -> List.find f l = List.find g l.
Proof.
  induction l as [|a l IH]; intros H; simpl; [done|].
  rewrite <-(H a) by left. destruct (f a); [done|].
  apply IH. intros x Hx. apply H. by right.
Qed.

Lemma find_first {A} (f : A -> bool) (pre : list A) (c : A) (post : list A) :
  Forall (fun x => f x = false) pre -> f c = true ->
  List.find f (pre ++ c :: post) = Some c.
Proof.
  induction 1 as [|a pre Ha _ IH]; intros Hc; simpl.
  - by rewrite Hc.
  - rewrite Ha. by apply IH.
Qed.

Lemma find_none {A} (f : A -> bool) (l : list A) :
  Forall (fun x => f x = false) l -> List.find f l = None.
Proof. induction 1 as [|a l Ha _ IH]; simpl; [done|]. by rewrite Ha. Qed.

Lemma find_elem_of {A} (f : A -> bool) (l : list A) (x : A) :
  List.find f l = Some x -> x ∈ l.
Proof. intros H. apply find_some in H. apply list_elem_of_In, H. Qed.

Section UniqueUsernameProps.

Variable toLowerCase : jsstring -> jsstring.
Variable Math_random : nat -> double.

(** The number the [k]-th call of [random()] renders. *)
Definition draw (k : nat) : Z := Math_floor (times (Math_random k) 100) + 1.

(** The candidate the e-mail address gives, when it is a non-empty string. *)
Definition email_candidate (data : UserData) : list jsstring :=
  match data_email data with
  | Some (c :: e) => [toLowerCase (c :: e)]
  | _ => []
  end.

(** The candidates in order: the e-mail address, the name, and the name
    followed by each of five successive draws. *)
Lemma usernames_eq (data : UserData) (i : nat) :
  let name := toLowerCase (data_firstName data ++ data_lastName data) in
  fst (usernames toLowerCase Math_random data i)
  = email_candidate data ++
    name :: map (fun k => name ++ String_of_number (draw (i + k))) (seq 0 5).
Proof.
  unfold usernames, email_candidate, rand_bind, random, rand_ret, draw. simpl.
  rewrite !Nat.add_succ_r, Nat.add_0_r.
  by destruct (data_email data) as [[|c e]|].
Qed.

(** The stored users the query returns and the whole collection agree on
    every candidate. *)
Lemma takenb_find_in (db : list User) (cands : list jsstring) (h : jsstring) :
  h ∈ cands -> takenb (find_in db cands) h = takenb db h.
Proof.
  intros Hh. unfold takenb, find_in.
  induction db as [|user db IH]; simpl; [done|].
  destruct (username user) as [n|] eqn:Hn.
  - case_bool_decide as Hin; simpl.
    + rewrite Hn. by rewrite IH.
    + rewrite IH. rewrite bool_decide_eq_false_2; [done|].
      intros [= ->]. done.
  - rewrite IH. by rewrite bool_decide_eq_false_2.
Qed.

(** What [uniqueUsername] settles with, in terms of the collection. *)
Lemma uniqueUsername_eq (db : list User) (data : UserData) (i : nat) :
  fst (uniqueUsername toLowerCase Math_random db data i)
  = match List.find (fun h => negb (takenb db h))
            (fst (usernames toLowerCase Math_random data i)) with
    | Some (c :: s) => inr (c :: s)
    | _ => inl UNABLE
    end.
Proof.
  unfold uniqueUsername, rand_bind, rand_ret.
  destruct (usernames toLowerCase Math_random data i) as [cands j]. simpl.
  unfold pick.
  rewrite (find_ext_in _ (fun h => negb (takenb db h))).
  - by destruct (List.find _ cands) as [[|c s]|].
  - intros h Hh. by rewrite <-(takenb_find_in db cands h Hh).
Qed.

(** The generator returns the first candidate no stored user has. *)
Definition returns_first_free (db : list User) (data : UserData) (i : nat) : Prop :=
  forall pre c post,
    fst (usernames toLowerCase Math_random data i) = pre ++ c :: post ->
    Forall (taken db) pre -> ~ taken db c ->
    fst (uniqueUsername toLowerCase Math_random db data i) = inr c.

(** C5, amended. The candidates are, in order, the lower-cased e-mail
    address when it is a non-empty string, the lower-cased
    [firstName + lastName], and that name followed by each of five numbers
    drawn from 1 to 100. The generator is fulfilled with the first
    candidate that no stored user has, when that candidate is not the empty
    string, and is rejected when every candidate is taken. *)
Theorem uniqueUsername_first_free (db : list User) (data : UserData) (i : nat) :
  (forall k, below_one (Math_random k)) ->
  let name := toLowerCase (data_firstName data ++ data_lastName data) in
  let cands := fst (usernames toLowerCase Math_random data i) in
  let result := fst (uniqueUsername toLowerCase Math_random db data i) in
  (exists ns : list Z,
      length ns = 5%nat /\ Forall (fun n => 1 <= n <= 100) ns
      /\ cands = email_candidate data ++
                 name :: map (fun n => name ++ String_of_number n) ns)
  /\ (forall pre c post,
        cands = pre ++ c :: post -> Forall (taken db) pre -> ~ taken db c ->
        c <> [] -> result = inr c)
  /\ (Forall (taken db) cands -> result = inl UNABLE).
Proof.
  intros Hrange name cands result. split; [|split].
  - exists (map (fun k => draw (i + k)) (seq 0 5)). split; [done|]. split.
    + apply Forall_map, Forall_forall. intros k _. apply draw_range, Hrange.
    + unfold cands. rewrite usernames_eq. by rewrite map_map.
  - intros pre c post Hcands Hpre Hc Hne. unfold result.
    rewrite uniqueUsername_eq. fold cands. rewrite Hcands.
    rewrite find_first.
    + by destruct c.
    + eapply Forall_impl; [exact Hpre|]. intros h Hh. simpl.
      apply takenb_true in Hh. by rewrite Hh.
    + apply takenb_false in Hc. by rewrite Hc.
  - intros Hall. unfold result. rewrite uniqueUsername_eq. fold cands.
    rewrite find_none; [done|].
    eapply Forall_impl; [exact Hall|]. intros h Hh. simpl.
    apply takenb_true in Hh. by rewrite Hh.
Qed.

(** Whatever is returned is one of the candidates. *)
Lemma uniqueUsername_elem_of (db : list User) (data : UserData) (i : nat) (h : jsstring) :
  fst (uniqueUsername toLowerCase Math_random db data i) = inr h ->
  h ∈ fst (usernames toLowerCase Math_random data i).
Proof.
  rewrite uniqueUsername_eq.
  destruct (List.find _ _) as [[|c s]|] eqn:Hfind; intros [= <-].
  by apply find_elem_of in Hfind.
Qed.

End UniqueUsernameProps.

(** [toLowerCase] on strings of ASCII code units. *)
Definition toLowerCase_ascii (s : jsstring) : jsstring :=
  map (fun c => if (65 <=? c)%N && (c <=? 90)%N then (c + 32)%N else c) s.

(** Results of [Math.random()] that make the draws 1, 51, 100, 100, ...:
    the doubles 0, 0.5 and 0.99. *)
Definition sample_random (k : nat) : double :=
  match k with
  | O => {| mant := 0; expo := -53 |}
  | S O => {| mant := 4503599627370496; expo := -53 |}
  | _ => {| mant := 8917127262193582; expo := -53 |}
  end.

Lemma sample_random_range (k : nat) : below_one (sample_random k).
Proof. destruct k as [|[|k]]; unfold below_one; simpl; lia. Qed.

Definition named (h : string) : User :=
  {| _id := 1%N; firstName := []; lastName := []; fullName := None; email := None;
     username := Some (lit h); password := None; roles := ["user"%string];
     isSuspended := false; others := ∅ |}.

(** With "ab" and "ab1" taken and the draws 1, 51, ..., the name "Ab" gets
    "ab51". *)
Lemma uniqueUsername_first_free_witness :
  fst (uniqueUsername toLowerCase_ascii sample_random [named "ab"; named "ab1"]
         {| data_email := None; data_firstName := lit "A"; data_lastName := lit "b" |} 0%nat)
  = inr (lit "ab51").
Proof.
  destruct (uniqueUsername_first_free toLowerCase_ascii sample_random
              [named "ab"; named "ab1"]
              {| data_email := None; data_firstName := lit "A"; data_lastName := lit "b" |}
              0%nat sample_random_range) as (_ & Hfirst & _).
  apply (Hfirst [lit "ab"; lit "ab1"] (lit "ab51") (replicate 3 (lit "ab100"))).
  - reflexivity.
  - repeat constructor.
    + exists (named "ab"). split; [left|reflexivity].
    + exists (named "ab1"). split; [right; left|reflexivity].
  - apply takenb_false. reflexivity.
  - discriminate.
Defined.

(** C5 as stated fails: with both names empty and no user stored, the first
    candidate is the empty string, which nobody has, and the generator is
    rejected instead of returning it. *)
Lemma uniqueUsername_not_first_free :
  ~ returns_first_free toLowerCase_ascii (fun _ => {| mant := 0; expo := -53 |}) []
      {| data_email := None; data_firstName := []; data_lastName := [] |} 0%nat.
Proof.
  intros H.
  specialize (H [] [] (replicate 5 (lit "1")) eq_refl (List.Forall_nil _)).
  assert (~ taken [] []) as Hfree by (apply takenb_false; reflexivity).
  specialize (H Hfree). discriminate H.
Qed.

(** C10. The five suffixes come from five successive results of
    [Math.random()], each giving a number from 1 to 100; some results make
    all five suffixed candidates the same string, so the list of candidates
    has duplicates; and whatever the generator returns is one of the
    candidates. *)
Theorem suffixed_candidates_can_collide (toLowerCase : jsstring -> jsstring) :
  (forall rnd data i,
      let name := toLowerCase (data_firstName data ++ data_lastName data) in
      fst (usernames toLowerCase rnd data i)
      = email_candidate toLowerCase data ++
        name :: map (fun k => name ++ String_of_number (draw rnd (i + k))) (seq 0 5))
  /\ (forall rnd k, below_one (rnd k) -> 1 <= draw rnd k <= 100)
  /\ (exists rnd,
        (forall k, below_one (rnd k))
        /\ forall data i,
            let name := toLowerCase (data_firstName data ++ data_lastName data) in
            let cands := fst (usernames toLowerCase rnd data i) in
            drop (length cands - 5)%nat cands = replicate 5 (name ++ lit "1")
            /\ ~ NoDup cands)
  /\ (forall rnd db data i h,
        fst (uniqueUsername toLowerCase rnd db data i) = inr h ->
        h ∈ fst (usernames toLowerCase rnd data i)).
Proof.
  split; [|split; [|split]].
  - intros rnd data i. apply usernames_eq.
  - intros rnd k. apply draw_range.
  - exists (fun _ => {| mant := 0; expo := -53 |}).
    split; [intros _; unfold below_one; simpl; lia|].
    intros data i name cands. unfold cands. rewrite usernames_eq.
    fold name. unfold draw.
    change (Math_floor (times {| mant := 0; expo := -53 |} 100) + 1) with 1.
    simpl. change (String_of_number 1) with (lit "1"). split.
    + unfold email_candidate. by destruct (data_email data) as [[|c e]|].
    + rewrite NoDup_app. intros (_ & _ & Hdup).
      apply NoDup_cons in Hdup as [_ Hdup].
      apply NoDup_cons in Hdup as [Hnotin _]. apply Hnotin. left.
  - intros rnd db data i h. apply uniqueUsername_elem_of.
Qed.

Lemma suffixed_candidates_can_collide_witness :
  lit "ab51"
  ∈ fst (usernames toLowerCase_ascii sample_random
           {| data_email := None; data_firstName := lit "A"; data_lastName := lit "b" |}
           0%nat).
Proof.
  destruct (suffixed_candidates_can_collide toLowerCase_ascii) as (_ & _ & _ & Hmember).
  apply (Hmember sample_random [named "ab"; named "ab1"]
           {| data_email := None; data_firstName := lit "A"; data_lastName := lit "b" |}
           0%nat (lit "ab51")).
  reflexivity.
Defined.

End UserModelProps.

(** * Properties of the authentication controller *)

Module AuthCtrlProps.

Import UserModel AuthCtrl.

(** ** The token endpoint *)

(** The passport strategy the [switch] picks for a grant type. *)
Definition strategy_for (grantType : value) : option string :=
  if is_str grantType "bearer" then Some "bearer"%string
  else if is_str grantType "password" then Some "local"%string
  else if is_str grantType "refreshToken" then Some "refresh"%string
  else None.

Lemma is_str_true (v : value) (s : string) : is_str v s = true <-> v = Str s.
Proof.
  destruct v; simpl; try (split; [discriminate|intros [=]]).
  rewrite bool_decide_eq_true. split; [by intros ->|by intros [= ->]].
Qed.

Lemma strategy_for_Some (grantType : value) (strategy : string) :
  strategy_for grantType = Some strategy ->
  grantType = Str "bearer" \/ grantType = Str "password" \/ grantType = Str "refreshToken".
Proof.
  unfold strategy_for.
  destruct (is_str grantType "bearer") eqn:Hb; [apply is_str_true in Hb; auto|].
  destruct (is_str grantType "password") eqn:Hp; [apply is_str_true in Hp; auto|].
  destruct (is_str grantType "refreshToken") eqn:Hr; [apply is_str_true in Hr; auto|].
  discriminate.
Qed.

Section TokenProps.

Variable toCamelCase : value -> value.
Variable sign : string -> Claims -> string.
Variable passport_authenticate : string -> Req -> option error * option User.

(** The claims of the access token of a grant. *)
Definition access_claims (req : Req) (grantType : value) (secureStatus : bool)
    (now : Z) (user : User) : Claims :=
  if secureStatus && is_str grantType "password"
  then with_secureStatus (getClaims user)
         (now + SECURE_STATUS_EXPIRATION (locals req) * 1000)
  else getClaims user.

(** The cookie that carries the refresh token. *)
Definition refresh_cookie (req : Req) (user : User) : Cookie :=
  {| cookie_name := "refreshToken";
     cookie_value := sign "refresh" (getClaims user);
     cookie_options :=
       {| maxAge := REFRESH_TOKEN_COOKIE_MAX_AGE (locals req) * 1000;
          secure := req_secure req;
          httpOnly := true |} |}.

(** The state a grant for [user] leaves behind. *)
Definition granted (grantType : value) (remember secureStatus : bool) (now : Z)
    (user : User) (w : World) : World :=
  let claims := access_claims (w_req w) grantType secureStatus now user in
  {| w_req := set_me (w_req w) user;
     w_res :=
       {| cookies := cookies (w_res w) ++
                     (if remember then [refresh_cookie (w_req w) user] else []);
          sent := Some (sign "access" claims) |};
     minted := (if remember then [("refresh"%string, getClaims user)] else [])
               ++ ("access"%string, claims) :: minted w |}.

(** The callback on the three ways a strategy can end. *)
Lemma authCallback_error (grantType : value) (remember secureStatus : bool) (now : Z)
    (e : error) (user : option User) (w : World) :
  authCallback sign grantType remember secureStatus now (Some e) user w
  = (Some (NextErr (NotAuthenticatedError (Some e))), w).
Proof. reflexivity. Qed.

Lemma authCallback_no_user (grantType : value) (remember secureStatus : bool) (now : Z)
    (w : World) :
  authCallback sign grantType remember secureStatus now None None w
  = (Some (NextErr (NotAuthenticatedError None)), w).
Proof. reflexivity. Qed.

Lemma authCallback_suspended (grantType : value) (remember secureStatus : bool) (now : Z)
    (user : User) (w : World) :
  isSuspended user = true ->
  authCallback sign grantType remember secureStatus now None (Some user) w
  = (Some (NextErr UserSuspendedError), w).
Proof. intros H. unfold authCallback. by rewrite H. Qed.

Lemma authCallback_granted (grantType : value) (remember secureStatus : bool) (now : Z)
    (user : User) (w : World) :
  isSuspended user = false ->
  authCallback sign grantType remember secureStatus now None (Some user) w
  = (None, granted grantType remember secureStatus now user w).
Proof.
  intros H. unfold authCallback. rewrite H.
  unfold granted, access_claims, refresh_cookie, bind, ret, assign_me, get_req,
    jwt_generate, res_cookie, res_send. simpl.
  destruct remember; simpl; [done|]. by rewrite app_nil_r.
Qed.

(** [token] runs the callback on the result of the strategy of the grant
    type, and does nothing for any other grant type. *)
Lemma token_eq (now : Z) (w : World) :
  let req := w_req w in
  let grantType := toCamelCase (body_grantType (body req)) in
  token toCamelCase sign passport_authenticate now w
  = match strategy_for grantType with
    | Some strategy =>
        authCallback sign grantType (truthy (body_remember (body req)))
          (truthy (body_secureStatus (body req))) now
          (fst (passport_authenticate strategy req))
          (snd (passport_authenticate strategy req)) w
    | None => (None, w)
    end.
Proof.
  unfold token, strategy_for, bind, get_req, ret. simpl.
  destruct (is_str _ "bearer"); [by destruct (passport_authenticate _ _)|].
  destruct (is_str _ "password"); [by destruct (passport_authenticate _ _)|].
  destruct (is_str _ "refreshToken"); [by destruct (passport_authenticate _ _)|].
  done.
Qed.

(** A grant: the strategy of the grant type resolves a user who is not
    suspended. *)
Definition grants (w : World) (user : User) : Prop :=
  exists strategy,
    strategy_for (toCamelCase (body_grantType (body (w_req w)))) = Some strategy
    /\ passport_authenticate strategy (w_req w) = (None, Some user)
    /\ isSuspended user = false.

Lemma token_granted (now : Z) (w : World) (user : User) :
  grants w user ->
  token toCamelCase sign passport_authenticate now w
  = (None,
     granted (toCamelCase (body_grantType (body (w_req w))))
       (truthy (body_remember (body (w_req w))))
       (truthy (body_secureStatus (body (w_req w)))) now user w).
Proof.
  intros (strategy & Hs & Hp & Hu). rewrite token_eq. simpl.
  rewrite Hs, Hp. simpl. by apply authCallback_granted.
Qed.

(** C1. In a grant exactly one access token is minted, the one sent. Its
    claims have a [secureStatus] exactly when the request's [secureStatus]
    flag is set and the grant type is 'password'; they have none for a
    'refreshToken' or 'bearer' grant; and a [secureStatus] is the current
    time plus [SECURE_STATUS_EXPIRATION] seconds. *)
Theorem secureStatus_iff_requested_password_grant (now : Z) (w : World) (user : User) :
  grants w user ->
  let req := w_req w in
  let grantType := toCamelCase (body_grantType (body req)) in
  let w' := snd (token toCamelCase sign passport_authenticate now w) in
  exists claims rest,
    minted w' = rest ++ ("access"%string, claims) :: minted w
    /\ Forall (fun m => fst m <> "access"%string) rest
    /\ sent (w_res w') = Some (sign "access" claims)
    /\ (is_Some (secureStatus claims) <->
        truthy (body_secureStatus (body req)) = true /\ grantType = Str "password")
    /\ (grantType = Str "refreshToken" \/ grantType = Str "bearer" ->
        secureStatus claims = None)
    /\ (forall t, secureStatus claims = Some t ->
                  t = now + SECURE_STATUS_EXPIRATION (locals req) * 1000).
Proof.
  intros Hg req grantType w'. unfold w'. rewrite (token_granted now w user Hg).
  simpl. fold req. fold grantType.
  set (secureStatus := truthy (body_secureStatus (body req))).
  exists (access_claims req grantType secureStatus now user).
  exists (if truthy (body_remember (body req))
          then [("refresh"%string, getClaims user)] else []).
  split; [done|]. split.
  { destruct (truthy (body_remember (body req))); repeat constructor. done. }
  split; [done|]. unfold access_claims.
  destruct secureStatus; simpl.
  - destruct (is_str grantType "password") eqn:Hp; simpl.
    + apply is_str_true in Hp. split; [|split].
      * split; [done|by eexists].
      * rewrite Hp. by intros [[=]|[=]].
      * by intros t [= <-].
    + split; [|split]; [|done|done].
      split; [by intros [t [=]]|]. intros [_ Hp'].
      apply is_str_true in Hp'. congruence.
  - split; [|split]; [|done|done].
    split; [by intros [t [=]]|]. by intros [[=] _].
Qed.

(** C2. A suspended user is turned away with [UserSuspendedError] and
    nothing else happens: by the grant callback whatever the grant type and
    the flags, by the token endpoint whenever a strategy resolves that
    user, and by [ensureAuthenticated] whatever roles it asks for. *)
Theorem suspended_user_is_rejected (user : User) :
  isSuspended user = true ->
  (forall grantType remember secureStatus now w,
      authCallback sign grantType remember secureStatus now None (Some user) w
      = (Some (NextErr UserSuspendedError), w))
  /\ (forall now w strategy,
        strategy_for (toCamelCase (body_grantType (body (w_req w)))) = Some strategy ->
        passport_authenticate strategy (w_req w) = (None, Some user) ->
        token toCamelCase sign passport_authenticate now w
        = (Some (NextErr UserSuspendedError), w))
  /\ (forall roles req,
        me req = Some user ->
        ensureAuthenticated roles req = NextErr UserSuspendedError).
Proof.
  intros Hs. split; [|split].
  - intros. by apply authCallback_suspended.
  - intros now w strategy Hstrategy Hp. rewrite token_eq. simpl.
    rewrite Hstrategy, Hp. simpl. by apply authCallback_suspended.
  - intros roles req Hme. unfold ensureAuthenticated. by rewrite Hme, Hs.
Qed.

(** C4, amended. A grant calls no [next], mints exactly one access token
    and sends it in the body. Without [remember] nothing else is minted and
    no cookie is written. With [remember] one refresh token is minted, from
    claims without [secureStatus], and it is written to the single cookie
    [refreshToken], which is http-only, is secure exactly when the request
    is, and has the configured max-age (in milliseconds). *)
Theorem grant_mints_access_and_optional_refresh (now : Z) (w : World) (user : User) :
  grants w user ->
  let req := w_req w in
  let remember := truthy (body_remember (body req)) in
  let w' := snd (token toCamelCase sign passport_authenticate now w) in
  fst (token toCamelCase sign passport_authenticate now w) = None
  /\ exists claims,
      sent (w_res w') = Some (sign "access" claims)
      /\ (remember = false ->
          minted w' = ("access"%string, claims) :: minted w
          /\ cookies (w_res w') = cookies (w_res w))
      /\ (remember = true ->
          exists refreshClaims,
            minted w'
            = ("refresh"%string, refreshClaims) :: ("access"%string, claims) :: minted w
            /\ secureStatus refreshClaims = None
            /\ cookies (w_res w')
               = cookies (w_res w) ++
                 [{| cookie_name := "refreshToken";
                     cookie_value := sign "refresh" refreshClaims;
                     cookie_options :=
                       {| maxAge := REFRESH_TOKEN_COOKIE_MAX_AGE (locals req) * 1000;
                          secure := req_secure req;
                          httpOnly := true |} |}]).
Proof.
  intros Hg req remember w'. unfold w'. rewrite (token_granted now w user Hg).
  simpl. fold req. fold remember. split; [done|].
  eexists. split; [done|]. split.
  - intros ->. simpl. by rewrite app_nil_r.
  - intros ->. simpl. exists (getClaims user). done.
Qed.

End TokenProps.

(** Stand-ins for the helper and the libraries: a [toCamelCase] that leaves
    camel-case input alone, a signer that names the kind, and strategies
    that all resolve the same user. *)
Definition sample_toCamelCase (v : value) : value := v.

Definition sample_sign (kind : string) (claims : Claims) : string := kind.

Definition sample_passport (user : User) (strategy : string) (req : Req)
    : option error * option User :=
  (None, Some user).

Definition admin : User :=
  {| _id := 7%N; firstName := lit "Ann"; lastName := lit "Lee"; fullName := None;
     email := None; username := Some (lit "annlee"); password := None;
     roles := ["admin"%string]; isSuspended := false; others := ∅ |}.

Definition suspended_admin : User :=
  {| _id := 8%N; firstName := lit "Bob"; lastName := lit "Ray"; fullName := None;
     email := None; username := Some (lit "bobray"); password := None;
     roles := ["admin"%string]; isSuspended := true; others := ∅ |}.

(** A password grant over plain HTTP that asks to be remembered and for
    secure status. *)
Definition password_request : Req :=
  {| body := {| body_grantType := Str "password"; body_remember := Bool true;
                body_secureStatus := Bool true |};
     req_secure := false;
     locals := {| SECURE_STATUS_EXPIRATION := 300;
                  REFRESH_TOKEN_COOKIE_MAX_AGE := 1209600 |};
     me := None;
     loaded := ∅ |}.

Definition fresh (req : Req) : World :=
  {| w_req := req; w_res := {| cookies := []; sent := None |}; minted := [] |}.

Lemma password_request_grants :
  grants sample_toCamelCase (sample_passport admin) (fresh password_request) admin.
Proof. exists "local"%string. repeat split. Defined.

Lemma secureStatus_iff_requested_password_grant_witness :
  exists claims,
    sent (w_res (snd (token sample_toCamelCase sample_sign (sample_passport admin) 1000
                        (fresh password_request))))
    = Some (sample_sign "access" claims)
    /\ secureStatus claims = Some 301000.
Proof.
  destruct (secureStatus_iff_requested_password_grant sample_toCamelCase sample_sign
              (sample_passport admin) 1000 (fresh password_request) admin
              password_request_grants)
    as (claims & rest & _ & _ & Hsent & [_ Hiff] & _ & Hval).
  exists claims. split; [exact Hsent|].
  destruct Hiff as [t Ht]; [split; reflexivity|].
  rewrite Ht. f_equal. exact (Hval t Ht).
Defined.

Lemma suspended_user_is_rejected_witness :
  token sample_toCamelCase sample_sign (sample_passport suspended_admin) 1000
    (fresh password_request)
  = (Some (NextErr UserSuspendedError), fresh password_request)
  /\ ensureAuthenticated ["user"%string] (set_me password_request suspended_admin)
     = NextErr UserSuspendedError.
Proof.
  destruct (suspended_user_is_rejected sample_toCamelCase sample_sign
              (sample_passport suspended_admin) suspended_admin eq_refl)
    as (_ & Htoken & Hensure).
  split.
  - apply (Htoken 1000 (fresh password_request) "local"%string); reflexivity.
  - apply Hensure. reflexivity.
Defined.

Lemma grant_mints_access_and_optional_refresh_witness :
  exists claims refreshClaims,
    minted (snd (token sample_toCamelCase sample_sign (sample_passport admin) 1000
                   (fresh password_request)))
    = [("refresh"%string, refreshClaims); ("access"%string, claims)]
    /\ secureStatus refreshClaims = None.
Proof.
  destruct (grant_mints_access_and_optional_refresh sample_toCamelCase sample_sign
              (sample_passport admin) 1000 (fresh password_request) admin
              password_request_grants)
    as (_ & claims & _ & _ & Hremember).
  destruct (Hremember eq_refl) as (refreshClaims & Hminted & Hnone & _).
  exists claims, refreshClaims. split; [exact Hminted|exact Hnone].
Defined.

(** C4 as stated fails: a remembered grant over plain HTTP writes the
    refresh token to a cookie that is not secure. *)
Lemma refresh_cookie_not_secure_over_http :
  grants sample_toCamelCase (sample_passport admin) (fresh password_request) admin
  /\ truthy (body_remember (body password_request)) = true
  /\ exists cookie,
      cookies (w_res (snd (token sample_toCamelCase sample_sign (sample_passport admin)
                             1000 (fresh password_request))))
      = [cookie]
      /\ cookie_name cookie = "refreshToken"%string
      /\ secure (cookie_options cookie) = false.
Proof.
  split; [exact password_request_grants|]. split; [reflexivity|].
  eexists. split; [reflexivity|]. split; reflexivity.
Qed.

(** ** The ownership guard *)

(** The roles and the prop key [belongsTo] settles on before it returns the
    middleware. *)
Definition settled_roles (propKey : PropKeyArg) (roles : option (list string))
    : option (list string) :=
  match propKey with
  | PKArray rs => Some rs
  | _ => roles
  end.

Definition settled_propKey (propKey : PropKeyArg) : string :=
  match propKey with
  | PKString s => s
  | _ => "user"%string
  end.

(** The owner reference [prop] is the id [i], raw or as the [_id] of a
    populated object. *)
Definition owner_ref (prop : PropVal) (i : ObjectId) : Prop :=
  prop = PObjectId i \/ prop = PObject (Some i).

(** The principal holds one of the roles the guard was given. *)
Definition holds_one (roles : option (list string)) (user : User) : Prop :=
  exists rs r, roles = Some rs /\ r ∈ rs /\ hasRole user r = true.

Lemma some_me_hasRole (user : User) (rs : list string) :
  some (me_hasRole (Some user)) rs = inr (existsb (hasRole user) rs).
Proof.
  induction rs as [|r rs IH]; simpl; [done|].
  destruct (hasRole user r); [done|]. by rewrite IH.
Qed.

Lemma existsb_hasRole (user : User) (rs : list string) :
  existsb (hasRole user) rs = true <-> exists r, r ∈ rs /\ hasRole user r = true.
Proof.
  rewrite existsb_exists. split; intros (r & Hin & Hr); exists r;
    (split; [by apply list_elem_of_In|done]).
Qed.

Section BelongsToProps.

Variable equals : ObjectId -> PropVal -> bool.

(** What [ObjectId.prototype.equals] does on another ObjectId. *)
Hypothesis equals_ObjectId : forall a b, equals a (PObjectId b) = bool_decide (a = b).

Lemma belongsTo_inr (itemKey ownerKey : string) (propKey : PropKeyArg)
    (roles : option (list string)) (guard : Req -> outcome) :
  belongsTo equals itemKey ownerKey propKey roles = inr guard ->
  guard = belongsTo_guard equals itemKey ownerKey (settled_propKey propKey)
            (settled_roles propKey roles).
Proof.
  unfold belongsTo.
  destruct propKey as [|[|a s]|rs]; simpl;
    try case_bool_decide; simpl; by intros [= <-].
Qed.

(** The role test on a request with a principal. *)
Lemma guard_bypass (itemKey ownerKey propKey : string) (roles : option (list string))
    (req : Req) (user : User) :
  me req = Some user -> holds_one roles user ->
  belongsTo_guard equals itemKey ownerKey propKey roles req = Next.
Proof.
  intros Hme (rs & r & -> & Hin & Hr). unfold belongsTo_guard.
  rewrite Hme, some_me_hasRole.
  replace (existsb (hasRole user) rs) with true; [done|].
  symmetry. apply existsb_hasRole. eauto.
Qed.

Lemma guard_no_bypass (roles : option (list string)) (user : User) :
  ~ holds_one roles user ->
  match roles with
  | Some roles => some (me_hasRole (Some user)) roles
  | None => inr false
  end = inr false.
Proof.
  intros Hno. destruct roles as [rs|]; [|done].
  rewrite some_me_hasRole. f_equal.
  destruct (existsb (hasRole user) rs) eqn:He; [|done].
  apply existsb_hasRole in He as (r & Hin & Hr). destruct Hno. by exists rs, r.
Qed.

(** C3. On a request with an authenticated principal: when the principal
    holds one of the given roles the guard passes; and when the owner and the
    item are loaded and the item's owner reference is an id, raw or as the
    [_id] of a populated object, the guard passes if that id is the owner's
    and, unless a role lets the principal through, fails with
    [NotAuthorizedError] if it is another id. *)
Theorem belongsTo_compares_owner (itemKey ownerKey : string) (propKeyArg : PropKeyArg)
    (rolesArg : option (list string)) (guard : Req -> outcome) (req : Req) (user : User) :
  belongsTo equals itemKey ownerKey propKeyArg rolesArg = inr guard ->
  me req = Some user ->
  let roles := settled_roles propKeyArg rolesArg in
  let propKey := settled_propKey propKeyArg in
  (holds_one roles user -> guard req = Next)
  /\ (forall owner item prop i,
        req_get req ownerKey = Some owner ->
        req_get req itemKey = Some item ->
        doc_get item propKey = Some prop ->
        owner_ref prop i ->
        (i = doc_id owner -> guard req = Next)
        /\ (i <> doc_id owner -> ~ holds_one roles user ->
            guard req = NextErr NotAuthorizedError)).
Proof.
  intros Hguard Hme roles propKey. apply belongsTo_inr in Hguard. subst guard.
  fold roles propKey. split; [by apply guard_bypass|].
  intros owner item prop i Howner Hitem Hprop Href. split.
  - intros ->.
    destruct (existsb (hasRole user) (default [] roles)) eqn:He.
    + apply existsb_hasRole in He as (r & Hin & Hr).
      apply guard_bypass with user; [done|].
      destruct roles as [rs|]; [by exists rs, r|]. by apply elem_of_nil in Hin.
    + unfold belongsTo_guard. rewrite Hme.
      replace (match roles with
               | Some roles0 => some (me_hasRole (Some user)) roles0
               | None => inr false
               end) with (@inr error bool false).
      2:{ destruct roles as [rs|]; [|done]. by rewrite some_me_hasRole, <-He. }
      rewrite Howner, Hitem, Hprop.
      destruct Href as [-> | ->]; rewrite equals_ObjectId;
        by rewrite bool_decide_eq_true_2.
  - intros Hne Hno. unfold belongsTo_guard. rewrite Hme.
    rewrite (guard_no_bypass roles user Hno). rewrite Howner, Hitem, Hprop.
    destruct Href as [-> | ->]; rewrite equals_ObjectId;
      by rewrite bool_decide_eq_false_2.
Qed.

(** C9, amended. The role test comes first. With a non-empty roles array
    and no principal on the request, a [TypeError] escapes from it, whatever
    else the request holds; and a principal who holds one of the roles is let
    through on any request, also one where the owner or the item is not
    loaded. *)
Theorem belongsTo_roles_checked_first (itemKey ownerKey : string)
    (propKeyArg : PropKeyArg) (rolesArg : option (list string))
    (guard : Req -> outcome) (req : Req) :
  belongsTo equals itemKey ownerKey propKeyArg rolesArg = inr guard ->
  let roles := settled_roles propKeyArg rolesArg in
  (forall r rs, roles = Some (r :: rs) -> me req = None -> guard req = Throw TypeError)
  /\ (forall user, me req = Some user -> holds_one roles user -> guard req = Next).
Proof.
  intros Hguard roles. apply belongsTo_inr in Hguard. subst guard. fold roles.
  split.
  - intros r rs Hroles Hme. unfold belongsTo_guard. by rewrite Hroles, Hme.
  - intros user Hme Hholds. by apply guard_bypass with user.
Qed.

(** An owner reference that is [null] makes the guard throw. *)
Lemma belongsTo_guard_null (itemKey ownerKey propKey : string) (req : Req)
    (owner item : Document) :
  req_get req ownerKey = Some owner ->
  req_get req itemKey = Some item ->
  doc_get item propKey = Some PNull ->
  belongsTo_guard equals itemKey ownerKey propKey None req = Throw TypeError.
Proof. intros Ho Hi Hp. unfold belongsTo_guard. by rewrite Ho, Hi, Hp. Qed.

End BelongsToProps.

(** [equals] on the values the model tells apart: true on the same
    ObjectId only. *)
Definition sample_equals (a : ObjectId) (v : PropVal) : bool :=
  match v with
  | PObjectId b => bool_decide (a = b)
  | _ => false
  end.

Lemma sample_equals_ObjectId (a b : ObjectId) :
  sample_equals a (PObjectId b) = bool_decide (a = b).
Proof. reflexivity. Defined.

Definition visitor : User :=
  {| _id := 9%N; firstName := lit "Cy"; lastName := lit "Day"; fullName := None;
     email := None; username := Some (lit "cyday"); password := None;
     roles := ["user"%string]; isSuspended := false; others := ∅ |}.

(** An item whose [user] is the populated document of user 7. *)
Definition item_of_admin : Document :=
  {| doc_id := 100%N; doc_props := {["user"%string := PObject (Some 7%N)]} |}.

Definition item_request (principal : option User) : Req :=
  {| body := {| body_grantType := Undefined; body_remember := Undefined;
                body_secureStatus := Undefined |};
     req_secure := true;
     locals := {| SECURE_STATUS_EXPIRATION := 300;
                  REFRESH_TOKEN_COOKIE_MAX_AGE := 1209600 |};
     me := principal;
     loaded := {["item"%string := item_of_admin]} |}.

Lemma belongsTo_compares_owner_witness :
  belongsTo_guard sample_equals "item" "me" "user" None (item_request (Some admin)) = Next
  /\ belongsTo_guard sample_equals "item" "me" "user" None (item_request (Some visitor))
     = NextErr NotAuthorizedError.
Proof.
  split.
  - destruct (belongsTo_compares_owner sample_equals sample_equals_ObjectId
                "item" "me" PKUndefined None _ (item_request (Some admin)) admin
                eq_refl eq_refl) as [_ H].
    destruct (H (user_document admin) item_of_admin (PObject (Some 7%N)) 7%N
                eq_refl eq_refl eq_refl (or_intror eq_refl)) as [Hpass _].
    apply Hpass. reflexivity.
  - destruct (belongsTo_compares_owner sample_equals sample_equals_ObjectId
                "item" "me" PKUndefined None _ (item_request (Some visitor)) visitor
                eq_refl eq_refl) as [_ H].
    destruct (H (user_document visitor) item_of_admin (PObject (Some 7%N)) 7%N
                eq_refl eq_refl eq_refl (or_intror eq_refl)) as [_ Hfail].
    apply Hfail.
    + discriminate.
    + intros (rs & r & Hroles & _). discriminate Hroles.
Defined.

Lemma belongsTo_roles_checked_first_witness :
  belongsTo_guard sample_equals "item" "me" "user" (Some ["admin"%string])
    (item_request None) = Throw TypeError
  /\ belongsTo_guard sample_equals "order" "club" "club" (Some ["admin"%string])
       (item_request (Some admin)) = Next.
Proof.
  split.
  - destruct (belongsTo_roles_checked_first sample_equals
                "item" "me" (PKArray ["admin"%string]) None _ (item_request None)
                eq_refl) as [Hthrow _].
    apply (Hthrow "admin"%string []); reflexivity.
  - destruct (belongsTo_roles_checked_first sample_equals
                "order" "club" (PKString "club") (Some ["admin"%string]) _
                (item_request (Some admin)) eq_refl) as [_ Hpass].
    apply (Hpass admin); [reflexivity|].
    exists ["admin"%string], "admin"%string.
    split; [reflexivity|]. split; [left|reflexivity].
Defined.

(** C9 as stated fails: with the empty roles array and no principal the
    role test does not throw; the guard goes on to the presence checks and
    fails with a [ServerError]. *)
Lemma belongsTo_empty_roles_no_principal :
  exists guard,
    belongsTo sample_equals "item" "me" (PKArray []) None = inr guard
    /\ settled_roles (PKArray []) None = Some []
    /\ me (item_request None) = None
    /\ guard (item_request None)
       = NextErr (ServerError "Owner of type me has not been loaded").
Proof. eexists. repeat split. Qed.

End AuthCtrlProps.

(** * Further properties of the user model *)

Module UserModelExtra.

Import UserModel UserModelProps.

(** ** Name cleaning *)

(** The code units [cleanName] replaces or removes. *)
Definition SPECIAL : list N := [APOSTROPHE; EM_DASH; BACKSLASH; SLASH].

Lemma special_split (c : N) :
  (c ∉ SPECIAL) <-> (c ∉ [APOSTROPHE]) /\ (c ∉ [EM_DASH]) /\ (c ∉ [BACKSLASH; SLASH]).
Proof. unfold SPECIAL. rewrite !not_elem_of_cons. tauto. Qed.

Lemma cleanName_no_special (s : jsstring) : Forall (fun c => c ∉ SPECIAL) (cleanName s).
Proof.
  pose proof (cleanName_no_apostrophe s) as Ha.
  pose proof (cleanName_no_em_dash s) as Hd.
  pose proof (cleanName_no_separator s) as Hs.
  rewrite Forall_forall in *. intros c Hc. apply special_split. auto.
Qed.

Lemma cleanName_fixed (s : jsstring) :
  Forall (fun c => c ∉ SPECIAL) s -> cleanName s = s.
Proof.
  intros H. unfold cleanName.
  assert (Forall (fun c => (c ∉ [APOSTROPHE]) /\ (c ∉ [EM_DASH])
                           /\ (c ∉ [BACKSLASH; SLASH])) s) as H'.
  { eapply Forall_impl; [exact H|]. intros c Hc. simpl in Hc. by apply special_split. }
  rewrite (replace_class_fixed [APOSTROPHE])
    by (eapply Forall_impl; [exact H'|]; by intros c (? & ? & ?)).
  rewrite (replace_class_fixed [EM_DASH])
    by (eapply Forall_impl; [exact H'|]; by intros c (? & ? & ?)).
  apply replace_class_fixed. eapply Forall_impl; [exact H'|]. by intros c (? & ? & ?).
Qed.

(** X1. The names [cleanName] leaves as they are are exactly those without
    an apostrophe, an em dash, a slash or a backslash. *)
Theorem cleanName_fixed_iff (s : jsstring) :
  cleanName s = s <-> Forall (fun c => c ∉ SPECIAL) s.
Proof.
  split.
  - intros <-. apply cleanName_no_special.
  - apply cleanName_fixed.
Qed.

Lemma replace_class_length (cls : list N) (repl s : jsstring) :
  (length repl <= 1)%nat -> (length (replace_class cls repl s) <= length s)%nat.
Proof.
  intros Hrepl. induction s as [|c s IH]; simpl; [done|].
  rewrite length_app. case_bool_decide; simpl; lia.
Qed.

(** X2. Cleaning never makes a name longer. *)
Theorem cleanName_length (s : jsstring) :
  (length (cleanName s) <= length s)%nat.
Proof.
  unfold cleanName.
  etransitivity; [apply replace_class_length; simpl; lia|].
  etransitivity; [apply replace_class_length; simpl; lia|].
  apply replace_class_length. simpl. lia.
Qed.

(** ** Roles *)

(** ** Serialization *)

(** X8. The properties of the serialized object are exactly those of the
    plain object other than [password] and [fullName], with their values. *)
Theorem toJSON_only_removes (ret : gmap string value) (key : string) (v : value) :
  toJSON_transform ret !! key = Some v
  <-> ret !! key = Some v /\ key <> "password"%string /\ key <> "fullName"%string.
Proof.
  unfold toJSON_transform.
  destruct (decide (key = "fullName"%string)) as [->|Hf].
  { rewrite lookup_delete_eq. split; [done|]. by intros (_ & _ & ?). }
  rewrite lookup_delete_ne by done.
  destruct (decide (key = "password"%string)) as [->|Hp].
  { rewrite lookup_delete_eq. split; [done|]. by intros (_ & ? & _). }
  rewrite lookup_delete_ne by done. tauto.
Qed.

(** X3. After [addRole r] the user has [r] and exactly the roles held
    before. *)
Theorem addRole_hasRole_iff (this : User) (role other : string) :
  hasRole (addRole this role) other = true
  <-> other = role \/ hasRole this other = true.
Proof.
  unfold addRole, hasRole. rewrite !bool_decide_eq_true.
  destruct (bool_decide (role ∈ roles this)) eqn:Hin; simpl.
  - apply bool_decide_eq_true_1 in Hin. split; [auto|]. by intros [->|].
  - rewrite elem_of_app, list_elem_of_singleton. tauto.
Qed.

(** X4. [addRole] never duplicates a role: a list of roles without
    duplicates stays so. *)
Theorem addRole_NoDup (this : User) (role : string) :
  NoDup (roles this) -> NoDup (roles (addRole this role)).
Proof.
  intros Hnd. unfold addRole.
  destruct (bool_decide (role ∈ roles this)) eqn:Hin; simpl; [done|].
  apply bool_decide_eq_false_1 in Hin.
  apply NoDup_app. split; [done|]. split; [|apply NoDup_singleton].
  intros r Hr Hr'. apply list_elem_of_singleton in Hr'. by subst.
Qed.

Lemma addRole_NoDup_witness :
  NoDup (roles (addRole (addRole sample_user "admin") "admin")).
Proof.
  apply addRole_NoDup, addRole_NoDup. simpl. apply NoDup_singleton.
Defined.

(** ** Unique user names *)

Lemma digits_inj (u v : Decimal.uint) : digits u = digits v -> u = v.
Proof.
  revert v. induction u; intros v; destruct v; simpl; intros [=]; f_equal; auto.
Qed.

Lemma String_of_number_inj (n m : Z) :
  0 <= n -> 0 <= m -> String_of_number n = String_of_number m -> n = m.
Proof.
  intros Hn Hm H.
  rewrite <-(DecimalZ.of_to n), <-(DecimalZ.of_to m). f_equal.
  unfold String_of_number in H.
  destruct n as [|p|p], m as [|q|q]; try lia; simpl in *;
    f_equal; by apply digits_inj.
Qed.

Section UniqueUsernameExtra.

Variable toLowerCase : jsstring -> jsstring.
Variable Math_random : nat -> double.

(** The five suffixed candidates are the last five of the array: the name
    followed by what the five calls of [random()] return. *)
Lemma suffixed_candidates (data : UserData) (i : nat) :
  let cands := fst (usernames toLowerCase Math_random data i) in
  drop (length cands - 5)%nat cands
  = map (fun k => toLowerCase (data_firstName data ++ data_lastName data)
                  ++ fst (random Math_random (i + k)%nat))
      (seq 0 5).
Proof.
  cbv zeta. rewrite usernames_eq. unfold email_candidate, random, draw.
  by destruct (data_email data) as [[|c e]|].
Qed.

(** X5. Of the five suffixed candidates that [uniqueUsername] builds, the
    [j]-th and the [k]-th are the same string exactly when
    [Math.floor(Math.random() * 100)] is the same number in the [j]-th and
    the [k]-th call of [random()]. *)
Theorem suffixed_candidates_equal_iff (data : UserData) (i j k : nat) :
  (forall n, below_one (Math_random n)) ->
  (j < 5)%nat -> (k < 5)%nat ->
  let cands := fst (usernames toLowerCase Math_random data i) in
  let suffixed := drop (length cands - 5)%nat cands in
  suffixed !! j = suffixed !! k
  <-> Math_floor (times (Math_random (i + j)%nat) 100)
      = Math_floor (times (Math_random (i + k)%nat) 100).
Proof.
  intros Hrange Hj Hk cands suffixed. unfold suffixed, cands.
  rewrite suffixed_candidates, !list_lookup_fmap.
  rewrite !lookup_seq_lt by done. simpl.
  pose proof (floor_times_100 _ (Hrange (i + j)%nat)) as Hfj.
  pose proof (floor_times_100 _ (Hrange (i + k)%nat)) as Hfk.
  split.
  - intros [= Heq%app_inv_head]. apply String_of_number_inj in Heq; lia.
  - by intros ->.
Qed.

(** X6. A user name the generator returns is one of the candidates, is not
    the empty string, and is the user name of no stored user. *)
Theorem uniqueUsername_free (db : list User) (data : UserData) (i : nat) (h : jsstring) :
  fst (uniqueUsername toLowerCase Math_random db data i) = inr h ->
  h ∈ fst (usernames toLowerCase Math_random data i)
  /\ h <> []
  /\ ~ taken db h.
Proof.
  intros H. split; [by apply uniqueUsername_elem_of in H|].
  rewrite uniqueUsername_eq in H.
  destruct (List.find _ _) as [[|c s]|] eqn:Hfind; try discriminate H.
  injection H as <-. split; [done|].
  apply find_some in Hfind as [_ Hfree]. apply takenb_false.
  by destruct (takenb db (c :: s)).
Qed.

(** X7. A non-empty e-mail address whose lower-case form is not empty and is
    the user name of no stored user is what the generator returns. *)
Theorem uniqueUsername_prefers_email (db : list User) (data : UserData) (i : nat)
    (c : N) (e : jsstring) :
  data_email data = Some (c :: e) ->
  toLowerCase (c :: e) <> [] ->
  ~ taken db (toLowerCase (c :: e)) ->
  fst (uniqueUsername toLowerCase Math_random db data i) = inr (toLowerCase (c :: e)).
Proof.
  intros He Hne Hfree. rewrite uniqueUsername_eq, usernames_eq.
  unfold email_candidate. rewrite He. simpl.
  apply takenb_false in Hfree. rewrite Hfree. simpl.
  by destruct (toLowerCase (c :: e)).
Qed.

(** The generator calls [Math.random()] five times, whatever the data
    and the stored users. *)
Lemma uniqueUsername_draws_five (db : list User) (data : UserData) (i : nat) :
  snd (uniqueUsername toLowerCase Math_random db data i) = (i + 5)%nat.
Proof.
  unfold uniqueUsername, usernames, rand_bind, random, rand_ret. simpl. lia.
Qed.

End UniqueUsernameExtra.

Lemma suffixed_candidates_equal_iff_witness :
  let cands :=
    fst (usernames toLowerCase_ascii sample_random
           {| data_email := None; data_firstName := lit "A"; data_lastName := lit "b" |}
           0%nat) in
  drop (length cands - 5)%nat cands !! 2%nat = drop (length cands - 5)%nat cands !! 3%nat.
Proof.
  apply (suffixed_candidates_equal_iff toLowerCase_ascii sample_random
           {| data_email := None; data_firstName := lit "A"; data_lastName := lit "b" |}
           0 2 3 sample_random_range); [lia|lia|reflexivity].
Defined.

Lemma uniqueUsername_free_witness :
  ~ taken [named "ab"; named "ab1"] (lit "ab51").
Proof.
  apply (uniqueUsername_free toLowerCase_ascii sample_random
           [named "ab"; named "ab1"]
           {| data_email := None; data_firstName := lit "A"; data_lastName := lit "b" |}
           0%nat (lit "ab51")).
  reflexivity.
Defined.

Lemma uniqueUsername_prefers_email_witness :
  fst (uniqueUsername toLowerCase_ascii sample_random [named "ab"; named "ab1"]
         {| data_email := Some (lit "A@B.io"); data_firstName := lit "A";
            data_lastName := lit "b" |} 0%nat)
  = inr (lit "a@b.io").
Proof.
  apply (uniqueUsername_prefers_email toLowerCase_ascii sample_random
           [named "ab"; named "ab1"]
           {| data_email := Some (lit "A@B.io"); data_firstName := lit "A";
              data_lastName := lit "b" |} 0%nat 65%N (lit "@B.io")).
  - reflexivity.
  - discriminate.
  - apply takenb_false. reflexivity.
Defined.

(** ** Passwords *)

Section PasswordExtra.

Variable BCRYPT_ROUNDS : Z.
Variable bcrypt_genSalt : Z -> nat -> promise jsstring.
Variable bcrypt_hash : jsstring -> jsstring -> promise jsstring.

(** X9. When the hashing hook does not call [next()] plainly, it has not
    touched the document. *)
Theorem preSave_failure_keeps_document (this : Doc) (entropy : nat) :
  snd (preSaveHashPassword BCRYPT_ROUNDS bcrypt_genSalt bcrypt_hash this entropy) <> Next ->
  fst (preSaveHashPassword BCRYPT_ROUNDS bcrypt_genSalt bcrypt_hash this entropy) = this.
Proof.
  unfold preSaveHashPassword.
  destruct (isModified this "password"); simpl; [|done].
  destruct (password (doc this)) as [[|c raw]|]; [done| |done].
  destruct (bcrypt_genSalt _ _) as [e|salt]; [done|].
  destruct (bcrypt_hash _ _) as [e|hash]; [done|]. simpl. by intros [].
Qed.

(** X10. When the hook lets the save of a modified password go on, the
    password was a non-empty string, what is stored in its place is, as the
    setter of the path trims it, the hash bcrypt made of it with the salt it
    drew, and no other path has changed. *)
Theorem preSave_stores_hash (this : Doc) (entropy : nat) :
  isModified this "password" = true ->
  snd (preSaveHashPassword BCRYPT_ROUNDS bcrypt_genSalt bcrypt_hash this entropy) = Next ->
  exists raw salt hash,
    password (doc this) = Some raw /\ raw <> []
    /\ bcrypt_genSalt BCRYPT_ROUNDS entropy = inr salt
    /\ bcrypt_hash raw salt = inr hash
    /\ fst (preSaveHashPassword BCRYPT_ROUNDS bcrypt_genSalt bcrypt_hash this entropy)
       = {| doc := with_password (doc this) (Some (trim hash));
            modified := modified this |}.
Proof.
  intros Hmod. unfold preSaveHashPassword. rewrite Hmod. simpl.
  destruct (password (doc this)) as [[|c raw]|]; [done| |done].
  destruct (bcrypt_genSalt _ _) as [e|salt] eqn:Hs; [done|].
  destruct (bcrypt_hash _ _) as [e|hash] eqn:Hh; [done|]. intros _.
  by exists (c :: raw), salt, hash.
Qed.

(** A rejection of [genSalt] or of [hash] is passed to [next] as it
    is. *)
Lemma preSave_passes_bcrypt_error (this : Doc) (entropy : nat) (raw : jsstring) (e : error) :
  isModified this "password" = true ->
  password (doc this) = Some raw -> raw <> [] ->
  bcrypt_genSalt BCRYPT_ROUNDS entropy = inl e
  \/ (exists salt, bcrypt_genSalt BCRYPT_ROUNDS entropy = inr salt
                   /\ bcrypt_hash raw salt = inl e) ->
  preSaveHashPassword BCRYPT_ROUNDS bcrypt_genSalt bcrypt_hash this entropy
  = (this, NextErr e).
Proof.
  intros Hmod Hraw Hne H. unfold preSaveHashPassword. rewrite Hmod, Hraw. simpl.
  destruct raw as [|c raw]; [done|].
  destruct H as [-> | (salt & -> & ->)]; done.
Qed.

End PasswordExtra.

Definition failing_genSalt (rounds : Z) (entropy : nat) : promise jsstring :=
  inl (Error "rounds must be a number").

Definition unsaved (u : User) : Doc := {| doc := u; modified := {["password"%string]} |}.

Lemma preSave_required_witness :
  preSaveHashPassword 10 toy_genSalt toy_hash
    (unsaved (with_password sample_user (Some []))) 4
  = (unsaved (with_password sample_user (Some [])),
     NextErr (ValidationError "password" "required")).
Proof.
  apply (preSave_required 10 toy_genSalt toy_hash
           (unsaved (with_password sample_user (Some []))) 4); reflexivity.
Defined.

Lemma preSave_failure_keeps_document_witness :
  fst (preSaveHashPassword 10 toy_genSalt toy_hash (unsaved (with_password sample_user (Some []))) 4)
  = unsaved (with_password sample_user (Some [])).
Proof.
  apply (preSave_failure_keeps_document 10 toy_genSalt toy_hash
           (unsaved (with_password sample_user (Some []))) 4).
  discriminate.
Defined.

Lemma preSave_stores_hash_witness :
  exists raw salt hash,
    password (doc (unsaved sample_user)) = Some raw /\ raw <> []
    /\ toy_genSalt 10 4 = inr salt
    /\ toy_hash raw salt = inr hash
    /\ fst (preSaveHashPassword 10 toy_genSalt toy_hash (unsaved sample_user) 4)
       = {| doc := with_password (doc (unsaved sample_user)) (Some (trim hash));
            modified := modified (unsaved sample_user) |}.
Proof.
  apply (preSave_stores_hash 10 toy_genSalt toy_hash (unsaved sample_user) 4).
  - reflexivity.
  - reflexivity.
Defined.

Lemma preSave_passes_bcrypt_error_witness :
  preSaveHashPassword 10 failing_genSalt toy_hash (unsaved sample_user) 4
  = (unsaved sample_user, NextErr (Error "rounds must be a number")).
Proof.
  apply (preSave_passes_bcrypt_error 10 failing_genSalt toy_hash (unsaved sample_user) 4
           (lit "s3cret") (Error "rounds must be a number")).
  - reflexivity.
  - reflexivity.
  - discriminate.
  - left. reflexivity.
Defined.

End UserModelExtra.

(** * Names, full names and the e-mail header *)

Module UserNames.

Import UserModel.

(** [UserSchema.statics.createFullName] *)
Definition createFullName (firstName lastName : jsstring) : jsstring :=
  trim (firstName ++ lit " " ++ lastName).

(** Assignments to the paths [firstName] and [lastName] go through the
    setter that [trim: true] gives them in the schema; [fullName] has
    none. *)
Definition set_firstName (this : User) (v : jsstring) : User :=
  {| _id := _id this; firstName := trim v; lastName := lastName this;
     fullName := fullName this; email := email this; username := username this;
     password := password this; roles := roles this; isSuspended := isSuspended this;
     others := others this |}.

Definition set_lastName (this : User) (v : jsstring) : User :=
  {| _id := _id this; firstName := firstName this; lastName := trim v;
     fullName := fullName this; email := email this; username := username this;
     password := password this; roles := roles this; isSuspended := isSuspended this;
     others := others this |}.

Definition set_fullName (this : User) (v : jsstring) : User :=
  {| _id := _id this; firstName := firstName this; lastName := lastName this;
     fullName := Some v; email := email this; username := username this;
     password := password this; roles := roles this; isSuspended := isSuspended this;
     others := others this |}.

(** The first [pre('save')] hook: the paths of the document when the hook
    calls [next()], which it always does. *)
Definition preSaveNames (this : Doc) : User :=
  let u := doc this in
  let u :=
    if isModified this "firstName" then set_firstName u (cleanName (firstName u))
    else u in
  let u :=
    if isModified this "lastName" then set_lastName u (cleanName (lastName u))
    else u in
  if isModified this "firstName" || isModified this "lastName"
  then set_fullName u (createFullName (firstName u) (lastName u))
  else u.

(** The virtual [emailWithName] *)
Definition emailWithName (this : User) : jsstring :=
  match email this with
  | None | Some [] => []
  | Some email =>
      match fullName this with
      | Some (c :: name) => (c :: name) ++ lit " <" ++ email ++ lit ">"
      | _ =>
          if truthy_str (Some (firstName this)) || truthy_str (Some (lastName this))
          then trim (firstName this ++ lit " " ++ lastName this)
               ++ lit " <" ++ email ++ lit ">"
          else email
      end
  end.

End UserNames.

Module UserNamesProps.

Import UserModel UserModelProps UserModelExtra UserNames.

(** ** Trimming *)

Lemma drop_spaces_suffix (s : jsstring) : exists p, s = p ++ drop_spaces s.
Proof.
  induction s as [|c s [p IH]]; simpl; [by exists []|].
  destruct (is_space c); [|by exists []].
  exists (c :: p). simpl. by rewrite <-IH.
Qed.

Lemma drop_spaces_length (s : jsstring) : (length (drop_spaces s) <= length s)%nat.
Proof.
  destruct (drop_spaces_suffix s) as [p Hp]. rewrite Hp at 2.
  rewrite length_app. lia.
Qed.

Lemma drop_spaces_Forall (P : N -> Prop) (s : jsstring) :
  Forall P s -> Forall P (drop_spaces s).
Proof.
  induction 1 as [|c s Hc Hs IH]; simpl; [constructor|].
  destruct (is_space c); [done|by constructor].
Qed.

(** A string is kept by [drop_spaces] exactly when it does not start with
    white space. *)
Lemma drop_spaces_fixed_head (c : N) (s : jsstring) :
  drop_spaces (c :: s) = c :: s <-> is_space c = false.
Proof.
  simpl. destruct (is_space c) eqn:Hc; [|done]. split; [|done].
  intros H. pose proof (drop_spaces_length s) as Hl. rewrite H in Hl. simpl in Hl. lia.
Qed.

Lemma drop_spaces_idem (s : jsstring) : drop_spaces (drop_spaces s) = drop_spaces s.
Proof.
  induction s as [|c s IH]; simpl; [done|].
  destruct (is_space c) eqn:Hc; [done|]. simpl. by rewrite Hc.
Qed.

(** Neither end of the string is white space. *)
Definition trimmed (s : jsstring) : Prop :=
  drop_spaces s = s /\ drop_spaces (rev s) = rev s.

Lemma trimmed_ends (s : jsstring) :
  trimmed s <->
  (forall c t, s = c :: t -> is_space c = false)
  /\ (forall c t, s = t ++ [c] -> is_space c = false).
Proof.
  unfold trimmed. split.
  - intros [Hl Hr]. split.
    + intros c t ->. by apply drop_spaces_fixed_head in Hl.
    + intros c t ->. rewrite rev_app_distr in Hr. simpl in Hr.
      by apply drop_spaces_fixed_head in Hr.
  - intros [Hl Hr]. split.
    + destruct s as [|c t]; [done|]. apply drop_spaces_fixed_head. by eapply Hl.
    + destruct (rev s) as [|c t] eqn:Hs; [done|].
      apply drop_spaces_fixed_head. apply (Hr c (rev t)).
      rewrite <-(rev_involutive s), Hs. done.
Qed.

Lemma trimmed_trim (s : jsstring) : trimmed s -> trim s = s.
Proof. intros [Hl Hr]. unfold trim. by rewrite Hl, Hr, rev_involutive. Qed.

Lemma trim_trimmed (s : jsstring) : trimmed (trim s).
Proof.
  unfold trimmed, trim. rewrite rev_involutive, drop_spaces_idem. split; [|done].
  set (x := drop_spaces s).
  assert (drop_spaces x = x) as Hx by apply drop_spaces_idem.
  destruct (drop_spaces_suffix (rev x)) as [p Hp].
  destruct (rev (drop_spaces (rev x))) as [|c t] eqn:Hy; [done|].
  apply drop_spaces_fixed_head.
  assert (x = (c :: t) ++ rev p) as Hxy.
  { rewrite <-Hy, <-rev_app_distr, <-Hp. by rewrite rev_involutive. }
  rewrite Hxy in Hx. simpl in Hx. by apply drop_spaces_fixed_head in Hx.
Qed.

Lemma trim_Forall (P : N -> Prop) (s : jsstring) : Forall P s -> Forall P (trim s).
Proof.
  intros H. unfold trim.
  apply List.Forall_rev, drop_spaces_Forall, List.Forall_rev, drop_spaces_Forall, H.
Qed.

Lemma trim_length (s : jsstring) : (length (trim s) <= length s)%nat.
Proof.
  unfold trim. rewrite length_rev.
  etransitivity; [apply drop_spaces_length|]. rewrite length_rev.
  apply drop_spaces_length.
Qed.

(** What the hook stores for a name: cleaned, then trimmed by the setter. *)
Lemma stored_name_fixed (s : jsstring) :
  trim (cleanName (trim (cleanName s))) = trim (cleanName s).
Proof.
  rewrite (cleanName_fixed (trim (cleanName s))).
  - apply trimmed_trim, trim_trimmed.
  - apply trim_Forall, cleanName_no_special.
Qed.

(** ** Full names *)

(** X11. A full name neither starts nor ends with white space. *)
Theorem createFullName_trimmed (firstName lastName : jsstring) :
  (forall c t, createFullName firstName lastName = c :: t -> is_space c = false)
  /\ (forall c t, createFullName firstName lastName = t ++ [c] -> is_space c = false).
Proof. apply trimmed_ends, trim_trimmed. Qed.

(** X12. The full name of a first name that is not empty and does not
    start with white space and a last name that is not empty and does not
    end with white space is the two names with one space between them. *)
Theorem createFullName_joins (c d : N) (first last : jsstring) :
  is_space c = false -> is_space d = false ->
  createFullName (c :: first) (last ++ [d]) = (c :: first) ++ lit " " ++ last ++ [d].
Proof.
  intros Hc Hd. unfold createFullName. apply trimmed_trim, trimmed_ends. split.
  - intros c' t [= <- _]. done.
  - intros d' t H. rewrite !app_assoc in H.
    apply app_inj_tail in H as [_ <-]. done.
Qed.

Lemma createFullName_joins_witness :
  createFullName (lit "Ann") (lit "Lee") = lit "Ann Lee".
Proof.
  apply (createFullName_joins 65%N 101%N (lit "nn") (lit "Le")); reflexivity.
Defined.

(** ** The hook that cleans names *)

Lemma preSaveNames_firstName (this : Doc) :
  firstName (preSaveNames this)
  = if isModified this "firstName" then trim (cleanName (firstName (doc this)))
    else firstName (doc this).
Proof.
  unfold preSaveNames.
  by destruct (isModified this "firstName"), (isModified this "lastName").
Qed.

Lemma preSaveNames_lastName (this : Doc) :
  lastName (preSaveNames this)
  = if isModified this "lastName" then trim (cleanName (lastName (doc this)))
    else lastName (doc this).
Proof.
  unfold preSaveNames.
  by destruct (isModified this "firstName"), (isModified this "lastName").
Qed.

(** X13. A modified first or last name is stored without apostrophe, em
    dash, slash or backslash, and without white space at either end. *)
Theorem preSaveNames_cleans (this : Doc) :
  (isModified this "firstName" = true ->
   Forall (fun c => c ∉ SPECIAL) (firstName (preSaveNames this))
   /\ trimmed (firstName (preSaveNames this)))
  /\ (isModified this "lastName" = true ->
      Forall (fun c => c ∉ SPECIAL) (lastName (preSaveNames this))
      /\ trimmed (lastName (preSaveNames this))).
Proof.
  split; intros H.
  - rewrite preSaveNames_firstName, H. split; [|apply trim_trimmed].
    apply trim_Forall, cleanName_no_special.
  - rewrite preSaveNames_lastName, H. split; [|apply trim_trimmed].
    apply trim_Forall, cleanName_no_special.
Qed.

(** X14. When a name is modified the stored full name is the full name of
    the names as stored; when none is, the document is left as it is. *)
Theorem preSaveNames_fullName (this : Doc) :
  (isModified this "firstName" || isModified this "lastName" = true ->
   fullName (preSaveNames this)
   = Some (createFullName (firstName (preSaveNames this)) (lastName (preSaveNames this))))
  /\ (isModified this "firstName" || isModified this "lastName" = false ->
      preSaveNames this = doc this).
Proof.
  unfold preSaveNames.
  destruct (isModified this "firstName"), (isModified this "lastName"); simpl;
    split; done.
Qed.

(** X15. Running the hook again on what it stored, with the same paths
    modified, changes nothing. *)
Theorem preSaveNames_idempotent (this : Doc) :
  preSaveNames {| doc := preSaveNames this; modified := modified this |}
  = preSaveNames this.
Proof.
  unfold preSaveNames, isModified. simpl.
  destruct (bool_decide ("firstName"%string ∈ modified this)),
    (bool_decide ("lastName"%string ∈ modified this)); simpl;
    unfold set_fullName, set_firstName, set_lastName; simpl;
    rewrite ?stored_name_fixed; reflexivity.
Qed.

Lemma preSaveNames_fullName_witness :
  fullName (preSaveNames {| doc := sample_user; modified := {["lastName"%string]} |})
  = Some (lit "Ann Lee").
Proof.
  destruct (preSaveNames_fullName
              {| doc := sample_user; modified := {["lastName"%string]} |}) as [H _].
  rewrite H; reflexivity.
Defined.

Lemma preSaveNames_cleans_witness :
  Forall (fun c => c ∉ SPECIAL)
    (firstName (preSaveNames {| doc := sample_user; modified := {["firstName"%string]} |})).
Proof.
  destruct (preSaveNames_cleans
              {| doc := sample_user; modified := {["firstName"%string]} |}) as [H _].
  destruct (H eq_refl) as [Hclean _]. exact Hclean.
Defined.

(** ** The e-mail header *)

(** X16. [emailWithName] is the empty string exactly when the user has no
    e-mail address or an empty one. *)
Theorem emailWithName_empty_iff (this : User) :
  emailWithName this = [] <-> truthy_str (email this) = false.
Proof.
  unfold emailWithName.
  destruct (email this) as [[|c e]|]; simpl; [done| |done].
  split; [|done].
  destruct (fullName this) as [[|c' name]|]; simpl.
  - destruct (firstName this), (lastName this); simpl; try done;
      by destruct (trim _).
  - done.
  - destruct (firstName this), (lastName this); simpl; try done;
      by destruct (trim _).
Qed.

End UserNamesProps.

(** * The password-reset e-mail *)

Module ResetPassword.

Import UserModel.

(** The claims of a password-reset token. *)
Record ResetClaims := {
  reset_id : ObjectId;
  reset_jti : ObjectId;
}.



Section ResetPasswordEmail.

(** [jwt.getExpiration(kind)], in seconds, and the signing function of
    [jwt.generate] on reset claims. *)
Variable getExpiration : string -> Z.
Variable sign : string -> ResetClaims -> string.



End ResetPasswordEmail.


End ResetPassword.

(** * Further properties of the authentication controller *)

Module AuthCtrlExtra.

Import UserModel AuthCtrl AuthCtrlProps.

(** ** The token endpoint *)

Section TokenExtra.

Variable toCamelCase : value -> value.
Variable sign : string -> Claims -> string.
Variable passport_authenticate : string -> Req -> option error * option User.

Lemma strategy_for_None (grantType : value) :
  grantType <> Str "bearer" -> grantType <> Str "password" ->
  grantType <> Str "refreshToken" -> strategy_for grantType = None.
Proof.
  intros Hb Hp Hr. unfold strategy_for.
  destruct (is_str grantType "bearer") eqn:H1; [by apply is_str_true in H1|].
  destruct (is_str grantType "password") eqn:H2; [by apply is_str_true in H2|].
  destruct (is_str grantType "refreshToken") eqn:H3; [by apply is_str_true in H3|].
  done.
Qed.

(** X18. For a grant type that is none of 'bearer', 'password' and
    'refreshToken' the endpoint runs no strategy, writes nothing and does
    not call [next]. *)
Theorem token_unknown_grant (now : Z) (w : World) :
  let grantType := toCamelCase (body_grantType (body (w_req w))) in
  grantType <> Str "bearer" -> grantType <> Str "password" ->
  grantType <> Str "refreshToken" ->
  token toCamelCase sign passport_authenticate now w = (None, w).
Proof.
  intros grantType Hb Hp Hr. rewrite token_eq. simpl. fold grantType.
  by rewrite strategy_for_None.
Qed.

(** X19. Whenever the endpoint calls [next], it passes a
    [NotAuthenticatedError] or a [UserSuspendedError], and it has minted no
    token, written no cookie, sent no body and left [req.me] alone. *)
Theorem token_failure_leaves_no_trace (now : Z) (w : World) (o : outcome) :
  fst (token toCamelCase sign passport_authenticate now w) = Some o ->
  snd (token toCamelCase sign passport_authenticate now w) = w
  /\ (o = NextErr UserSuspendedError
      \/ exists cause, o = NextErr (NotAuthenticatedError cause)).
Proof.
  rewrite token_eq. cbv zeta.
  destruct (strategy_for _) as [strategy|]; [|done].
  destruct (passport_authenticate strategy (w_req w)) as [[e|] [user|]];
    cbn [fst snd].
  - rewrite authCallback_error. intros [= <-]. eauto.
  - rewrite authCallback_error. intros [= <-]. eauto.
  - destruct (isSuspended user) eqn:Hs.
    + rewrite authCallback_suspended by done. intros [= <-]. eauto.
    + rewrite authCallback_granted by done. done.
  - rewrite authCallback_no_user. intros [= <-]. eauto.
Qed.

(** X20. An error of the strategy wins over the user it may have resolved:
    the endpoint passes a [NotAuthenticatedError] that wraps the error; and
    with neither error nor user it passes one without a cause. *)
Theorem token_not_authenticated (now : Z) (w : World) (strategy : string) :
  strategy_for (toCamelCase (body_grantType (body (w_req w)))) = Some strategy ->
  (forall e user,
      passport_authenticate strategy (w_req w) = (Some e, user) ->
      token toCamelCase sign passport_authenticate now w
      = (Some (NextErr (NotAuthenticatedError (Some e))), w))
  /\ (passport_authenticate strategy (w_req w) = (None, None) ->
      token toCamelCase sign passport_authenticate now w
      = (Some (NextErr (NotAuthenticatedError None)), w)).
Proof.
  intros Hs. split.
  - intros e user Hp. rewrite token_eq. simpl. by rewrite Hs, Hp.
  - intros Hp. rewrite token_eq. simpl. by rewrite Hs, Hp.
Qed.

(** X21. A grant attaches the resolved user to the request as [req.me] and
    changes nothing else of it; the claims of the access token it sends
    carry the id and the roles of that user. *)
Theorem token_grant_principal (now : Z) (w : World) (user : User) :
  grants toCamelCase passport_authenticate w user ->
  let w' := snd (token toCamelCase sign passport_authenticate now w) in
  w_req w' = set_me (w_req w) user
  /\ exists claims,
      sent (w_res w') = Some (sign "access" claims)
      /\ claims_id claims = _id user
      /\ claims_roles claims = roles user.
Proof.
  intros Hg w'. unfold w'. rewrite (token_granted _ _ _ now w user Hg). simpl.
  split; [done|]. eexists. split; [done|].
  unfold access_claims. by destruct (_ && _).
Qed.

(** X22. For a recognised grant type the endpoint either calls [next] and
    sends nothing, or sends the body and does not call [next]. *)
Theorem token_next_xor_send (now : Z) (w : World) (strategy : string) :
  strategy_for (toCamelCase (body_grantType (body (w_req w)))) = Some strategy ->
  sent (w_res w) = None ->
  let result := token toCamelCase sign passport_authenticate now w in
  (is_Some (fst result) /\ sent (w_res (snd result)) = None)
  \/ (fst result = None /\ is_Some (sent (w_res (snd result)))).
Proof.
  intros Hs Hsent result. unfold result. rewrite token_eq. cbv zeta. rewrite Hs.
  destruct (passport_authenticate strategy (w_req w)) as [[e|] [user|]];
    cbn [fst snd]; rewrite ?authCallback_error, ?authCallback_no_user;
    try (left; split; [by eexists|done]).
  destruct (isSuspended user) eqn:Hu.
  - rewrite authCallback_suspended by done. left. split; [by eexists|done].
  - rewrite authCallback_granted by done. right. split; [done|by eexists].
Qed.

End TokenExtra.

(** A request whose grant type no strategy serves. *)
Definition implicit_request : Req :=
  {| body := {| body_grantType := Str "implicit"; body_remember := Bool true;
                body_secureStatus := Bool true |};
     req_secure := true;
     locals := locals password_request;
     me := None;
     loaded := ∅ |}.

(** A strategy that fails with an error although it resolves a user. *)
Definition failing_passport (strategy : string) (req : Req) : option error * option User :=
  (Some (Error "jwt expired"), Some suspended_admin).

Lemma token_unknown_grant_witness :
  token sample_toCamelCase sample_sign (sample_passport admin) 1000 (fresh implicit_request)
  = (None, fresh implicit_request).
Proof.
  apply (token_unknown_grant sample_toCamelCase sample_sign (sample_passport admin) 1000
           (fresh implicit_request)); discriminate.
Defined.

Lemma token_failure_leaves_no_trace_witness :
  snd (token sample_toCamelCase sample_sign (sample_passport suspended_admin) 1000
         (fresh password_request))
  = fresh password_request.
Proof.
  destruct (token_failure_leaves_no_trace sample_toCamelCase sample_sign
              (sample_passport suspended_admin) 1000 (fresh password_request)
              (NextErr UserSuspendedError) eq_refl) as [H _].
  exact H.
Defined.

Lemma token_not_authenticated_witness :
  token sample_toCamelCase sample_sign failing_passport 1000 (fresh password_request)
  = (Some (NextErr (NotAuthenticatedError (Some (Error "jwt expired")))),
     fresh password_request).
Proof.
  destruct (token_not_authenticated sample_toCamelCase sample_sign failing_passport 1000
              (fresh password_request) "local"%string eq_refl) as [H _].
  apply (H (Error "jwt expired") (Some suspended_admin)). reflexivity.
Defined.

Lemma token_grant_principal_witness :
  me (w_req (snd (token sample_toCamelCase sample_sign (sample_passport admin) 1000
                    (fresh password_request))))
  = Some admin.
Proof.
  destruct (token_grant_principal sample_toCamelCase sample_sign (sample_passport admin)
              1000 (fresh password_request) admin password_request_grants) as [H _].
  rewrite H. reflexivity.
Defined.

Lemma token_next_xor_send_witness :
  let result :=
    token sample_toCamelCase sample_sign (sample_passport admin) 1000
      (fresh password_request) in
  (is_Some (fst result) /\ sent (w_res (snd result)) = None)
  \/ (fst result = None /\ is_Some (sent (w_res (snd result)))).
Proof.
  apply (token_next_xor_send sample_toCamelCase sample_sign (sample_passport admin) 1000
           (fresh password_request) "local"%string); reflexivity.
Defined.

(** ** [ensureAuthenticated] *)

(** X23. [ensureAuthenticated] lets a request through exactly when it has a
    principal who is not suspended and who, when roles are asked for, holds
    one of them. *)
Theorem ensureAuthenticated_passes_iff (roles : list string) (req : Req) :
  ensureAuthenticated roles req = Next
  <-> exists user,
        me req = Some user /\ isSuspended user = false
        /\ (roles = [] \/ exists r, r ∈ roles /\ hasRole user r = true).
Proof.
  unfold ensureAuthenticated. split.
  - destruct (me req) as [user|]; [|done].
    destruct (isSuspended user) eqn:Hs; [done|].
    case_bool_decide as Hroles; simpl.
    + intros _. exists user. auto.
    + destruct (existsb (hasRole user) roles) eqn:He; [|done]. intros _.
      exists user. split; [done|]. split; [done|]. right.
      by apply existsb_hasRole.
  - intros (user & -> & -> & H).
    case_bool_decide as Hroles; simpl; [done|].
    destruct H as [->|H]; [done|]. apply existsb_hasRole in H. by rewrite H.
Qed.

(** X24. [ensureAuthenticated] never throws, and the error it passes tells
    why: [NotAuthenticatedError] for a request without principal,
    [UserSuspendedError] for a suspended one, [NotAuthorizedError] for a
    principal in good standing who holds none of the roles asked for. *)
Theorem ensureAuthenticated_rejects (roles : list string) (req : Req) :
  (forall e, ensureAuthenticated roles req <> Throw e)
  /\ (forall e,
        ensureAuthenticated roles req = NextErr e ->
        (e = NotAuthenticatedError None /\ me req = None)
        \/ (e = UserSuspendedError
            /\ exists user, me req = Some user /\ isSuspended user = true)
        \/ (e = NotAuthorizedError
            /\ exists user,
                me req = Some user /\ isSuspended user = false /\ roles <> []
                /\ Forall (fun r => hasRole user r = false) roles)).
Proof.
  unfold ensureAuthenticated. split.
  - intros e. destruct (me req) as [user|]; [|done].
    destruct (isSuspended user); [done|]. by destruct (_ && _).
  - intros e. destruct (me req) as [user|]; [|intros [= <-]; auto].
    destruct (isSuspended user) eqn:Hs; [intros [= <-]; eauto 6|].
    case_bool_decide as Hroles; simpl; [done|].
    destruct (existsb (hasRole user) roles) eqn:He; simpl; [done|].
    intros [= <-]. right. right. split; [done|]. exists user.
    repeat split; try done.
    apply Forall_forall. intros r Hr.
    destruct (hasRole user r) eqn:Hh; [|done].
    assert (existsb (hasRole user) roles = true) as Ht
      by (apply existsb_hasRole; eauto).
    congruence.
Qed.

Lemma ensureAuthenticated_rejects_witness :
  ensureAuthenticated ["owner"%string] (set_me password_request admin)
  = NextErr NotAuthorizedError.
Proof.
  destruct (ensureAuthenticated_rejects ["owner"%string] (set_me password_request admin))
    as [_ H].
  destruct (ensureAuthenticated ["owner"%string] (set_me password_request admin))
    as [|e|e] eqn:Ho; [discriminate Ho| |discriminate Ho].
  destruct (H e eq_refl) as [[_ Hme] | [[_ (user & Hme & Hs)] | [-> _]]].
  - discriminate Hme.
  - injection Hme as <-. discriminate Hs.
  - reflexivity.
Defined.

(** ** [belongsTo] *)

(** The role test lets nobody through: no roles were given, or an empty
    array, or the principal holds none of them. *)
Definition no_role_bypass (roles : option (list string)) (principal : option User) : Prop :=
  match roles with
  | None | Some [] => True
  | Some rs => exists user, principal = Some user /\ Forall (fun r => hasRole user r = false) rs
  end.

Lemma no_role_bypass_test (roles : option (list string)) (principal : option User) :
  no_role_bypass roles principal ->
  match roles with
  | Some roles => some (me_hasRole principal) roles
  | None => inr false
  end = inr false.
Proof.
  destruct roles as [[|r rs]|]; simpl; [done| |done].
  intros (user & -> & Hnone). change (some (me_hasRole (Some user)) (r :: rs) = inr false).
  rewrite some_me_hasRole. f_equal.
  destruct (existsb (hasRole user) (r :: rs)) eqn:He; [|done].
  apply existsb_hasRole in He as (r' & Hin & Hr').
  rewrite Forall_forall in Hnone. by rewrite (Hnone r' Hin) in Hr'.
Qed.

Lemma some_me_hasRole_true (principal : option User) (rs : list string) :
  some (me_hasRole principal) rs = inr true ->
  exists user r, principal = Some user /\ r ∈ rs /\ hasRole user r = true.
Proof.
  destruct principal as [user|].
  - rewrite some_me_hasRole. intros [= He].
    apply existsb_hasRole in He as (r & Hin & Hr). by exists user, r.
  - by destruct rs.
Qed.

Section BelongsToExtra.

Variable equals : ObjectId -> PropVal -> bool.

(** X25. [belongsTo] throws at set-up exactly when it is left without a
    prop key: the empty string was given, or none was given (or an array of
    roles in its place) and the owner key is not 'me'. *)
Theorem belongsTo_throws_iff (itemKey ownerKey : string) (propKey : PropKeyArg)
    (roles : option (list string)) :
  belongsTo equals itemKey ownerKey propKey roles = inl MISSING_PROP_KEY
  <-> propKey = PKString ""
     \/ ((forall s, propKey <> PKString s) /\ ownerKey <> "me"%string).
Proof.
  unfold belongsTo. destruct propKey as [|[|a s]|rs]; simpl.
  - case_bool_decide as Hme; simpl; split; try done.
    + intros [[=]|[_ H]]. done.
    + intros _. right. split; [done|done].
  - split; [auto|done].
  - split; [done|]. intros [[=]|[H _]]. by destruct (H (String a s)).
  - case_bool_decide as Hme; simpl; split; try done.
    + intros [[=]|[_ H]]. done.
    + intros _. right. split; [done|done].
Qed.

(** An array in the place of the prop key is taken as the roles: the
    guard is the one for those roles and no prop key, and a fourth argument
    is ignored. *)
Lemma belongsTo_roles_as_propKey (itemKey ownerKey : string) (rs : list string)
    (roles : option (list string)) :
  belongsTo equals itemKey ownerKey (PKArray rs) roles
  = belongsTo equals itemKey ownerKey PKUndefined (Some rs).
Proof. reflexivity. Qed.

(** X26. The guard lets a request through only if the principal holds one
    of the given roles, or the owner and the item are loaded, the item has
    the property and [equals] says that the owner's id is the reference. *)
Theorem guard_passes_only_if (itemKey ownerKey propKey : string)
    (roles : option (list string)) (req : Req) :
  belongsTo_guard equals itemKey ownerKey propKey roles req = Next ->
  (exists user, me req = Some user /\ holds_one roles user)
  \/ (exists owner item prop,
        req_get req ownerKey = Some owner
        /\ req_get req itemKey = Some item
        /\ doc_get item propKey = Some prop
        /\ prop <> PNull
        /\ equals (doc_id owner)
             match prop with
             | PObject (Some i) => PObjectId i
             | _ => prop
             end = true).
Proof.
  unfold belongsTo_guard.
  destruct (match roles with
            | Some roles0 => some (me_hasRole (me req)) roles0
            | None => inr false
            end) as [e|[|]] eqn:Htest; [done| |].
  - intros _. left. destruct roles as [rs|]; [|done].
    apply some_me_hasRole_true in Htest as (user & r & Hme & Hin & Hr).
    exists user. split; [done|]. by exists rs, r.
  - destruct (req_get req ownerKey) as [owner|] eqn:Ho; [|done].
    destruct (req_get req itemKey) as [item|] eqn:Hi; [|done].
    destruct (doc_get item propKey) as [prop|] eqn:Hp; [|done].
    intros H. right. exists owner, item, prop.
    destruct prop as [|i|[i|]|]; [done|..];
      (destruct (equals _ _) eqn:He; [|done]); by repeat split.
Qed.

(** X27. For keys that name the principal or loaded documents: when the
    role test lets nobody through, the guard checks in this order that the
    owner is loaded, that the item is loaded and that the item has the
    property, and fails with the [ServerError] of the first that is
    missing. *)
Theorem guard_presence_checks (itemKey ownerKey propKey : string)
    (roles : option (list string)) (req : Req) :
  no_role_bypass roles (me req) ->
  (req_get req ownerKey = None ->
   belongsTo_guard equals itemKey ownerKey propKey roles req
   = NextErr (ServerError ("Owner of type " ++ ownerKey ++ " has not been loaded")))
  /\ (is_Some (req_get req ownerKey) -> req_get req itemKey = None ->
      belongsTo_guard equals itemKey ownerKey propKey roles req
      = NextErr (ServerError ("Item of type " ++ itemKey ++ " has not been loaded")))
  /\ (forall item,
        is_Some (req_get req ownerKey) -> req_get req itemKey = Some item ->
        doc_get item propKey = None ->
        belongsTo_guard equals itemKey ownerKey propKey roles req
        = NextErr (ServerError ("Item of type " ++ itemKey ++ " has no "
                                ++ propKey ++ " property"))).
Proof.
  intros Hno. unfold belongsTo_guard. rewrite (no_role_bypass_test _ _ Hno).
  split; [|split].
  - by intros ->.
  - by intros [owner ->] ->.
  - by intros item [owner ->] -> ->.
Qed.


End BelongsToExtra.



Lemma guard_passes_only_if_witness :
  (exists user, me (item_request (Some admin)) = Some user /\ holds_one None user)
  \/ (exists owner item prop,
        req_get (item_request (Some admin)) "me" = Some owner
        /\ req_get (item_request (Some admin)) "item" = Some item
        /\ doc_get item "user" = Some prop
        /\ prop <> PNull
        /\ sample_equals (doc_id owner)
             match prop with
             | PObject (Some i) => PObjectId i
             | _ => prop
             end = true).
Proof.
  apply (guard_passes_only_if sample_equals "item" "me" "user" None
           (item_request (Some admin))).
  reflexivity.
Defined.

Lemma guard_presence_checks_witness :
  belongsTo_guard sample_equals "item" "me" "user" None (item_request None)
  = NextErr (ServerError "Owner of type me has not been loaded").
Proof.
  destruct (guard_presence_checks sample_equals "item" "me" "user" None
              (item_request None) I) as [H _].
  apply H. reflexivity.
Defined.


End AuthCtrlExtra.
